(** * HCNC (Hikasami CSS Naming Convention) utilities: a shallow embedding

    The module [src/unnamed/part_002] (published as [utils.ts]) classifies CSS
    class names with JavaScript regular expressions.  The development has five
    layers:
    - [Regex]: the fragment of JavaScript regular expressions the module uses,
      a parser for the literal sources, a matcher by Brzozowski derivatives
      proved equal to the inductive semantics, and an analysis that runs a
      small automaton over every word of a pattern;
    - [Hcnc]: the module itself, with the module-level RegExp objects and
      their [lastIndex] fields as explicit state and thrown exceptions as an
      error monad;
    - [Api]: the rest of the package built on it: [parseClassString],
      [validateClassString], [getInvalidClasses], [extractClassSelectors],
      [validateCssSelector], and from the CLI ([src/unnamed/part_003])
      [extractClassesFromFile] and the [validate] command;
    - [Claims]: the properties of the specification, proved or refuted;
    - [Extras]: further properties of the code.

    Characters are 8-bit code units ([ascii]); code units above 255 are
    outside the model. *)

From Stdlib Require Import Ascii String List Bool Arith Lia.
Import ListNotations.
Open Scope bool_scope.

Module Regex.

(** ** Syntax and semantics *)

Inductive re : Type :=
| Empty
| Eps
| Chr (p : ascii -> bool)
| Seq (r1 r2 : re)
| Alt (r1 r2 : re)
| Star (r : re).

Inductive matches : re -> string -> Prop :=
| m_eps : matches Eps EmptyString
| m_chr p c : p c = true -> matches (Chr p) (String c EmptyString)
| m_seq r1 r2 s1 s2 :
    matches r1 s1 -> matches r2 s2 -> matches (Seq r1 r2) (s1 ++ s2)
| m_altl r1 r2 s : matches r1 s -> matches (Alt r1 r2) s
| m_altr r1 r2 s : matches r2 s -> matches (Alt r1 r2) s
| m_star0 r : matches (Star r) EmptyString
| m_star r s1 s2 :
    matches r s1 -> matches (Star r) s2 -> matches (Star r) (s1 ++ s2).

(** ** The matcher: Brzozowski derivatives *)

Fixpoint nullable (r : re) : bool :=
  match r with
  | Empty => false
  | Eps => true
  | Chr _ => false
  | Seq a b => nullable a && nullable b
  | Alt a b => nullable a || nullable b
  | Star _ => true
  end.

Fixpoint deriv (c : ascii) (r : re) : re :=
  match r with
  | Empty | Eps => Empty
  | Chr p => if p c then Eps else Empty
  | Seq a b =>
      if nullable a then Alt (Seq (deriv c a) b) (deriv c b)
      else Seq (deriv c a) b
  | Alt a b => Alt (deriv c a) (deriv c b)
  | Star a => Seq (deriv c a) (Star a)
  end.

Fixpoint matchb (r : re) (s : string) : bool :=
  match s with
  | EmptyString => nullable r
  | String c s' => matchb (deriv c r) s'
  end.

Lemma nullable_sound r : nullable r = true -> matches r EmptyString.
Proof.
  induction r; simpl; intros H; try discriminate.
  - constructor.
  - apply andb_true_iff in H as [H1 H2].
    change EmptyString with (EmptyString ++ EmptyString)%string.
    constructor; auto.
  - apply orb_true_iff in H as [H|H]; [apply m_altl|apply m_altr]; auto.
  - constructor.
Qed.

Lemma app_empty_inv (s1 s2 : string) :
  (s1 ++ s2)%string = EmptyString -> s1 = EmptyString /\ s2 = EmptyString.
Proof. destruct s1; simpl; [auto | discriminate]. Qed.

Lemma nullable_complete r s : matches r s -> s = EmptyString -> nullable r = true.
Proof.
  induction 1; simpl; intros E; try reflexivity; try discriminate.
  - apply app_empty_inv in E as [E1 E2]. rewrite IHmatches1, IHmatches2; auto.
  - rewrite IHmatches; auto.
  - rewrite IHmatches, orb_true_r; auto.
Qed.

Lemma star_cons_inv r c s :
  matches (Star r) (String c s) ->
  exists s1 s2, s = (s1 ++ s2)%string /\ matches r (String c s1) /\ matches (Star r) s2.
Proof.
  intros H. remember (Star r) as r0 eqn:Er. remember (String c s) as w eqn:Ew.
  revert s Ew. induction H; intros s0 Ew; try discriminate.
  injection Er as <-. destruct s1 as [|c1 s1]; simpl in Ew.
  - apply IHmatches2; auto.
  - injection Ew as <- <-. exists s1, s2. auto.
Qed.

Lemma deriv_sound r c s : matches (deriv c r) s -> matches r (String c s).
Proof.
  revert s. induction r; simpl; intros s H.
  - inversion H.
  - inversion H.
  - destruct (p c) eqn:Hp; inversion H; subst. constructor; auto.
  - destruct (nullable r1) eqn:N.
    + inversion H as [| |? ? ? ? Hs|? ? ? Hs|? ? ? Hs| |]; subst.
      * inversion Hs as [| |? ? s1 s2 Ha Hb| | | |]; subst. apply IHr1 in Ha.
        change (String c (s1 ++ s2)) with (String c s1 ++ s2)%string. constructor; auto.
      * apply IHr2 in Hs. change (String c s) with (EmptyString ++ String c s)%string.
        constructor; auto. apply nullable_sound; auto.
    + inversion H as [| |? ? s1 s2 Ha Hb| | | |]; subst. apply IHr1 in Ha.
      change (String c (s1 ++ s2)) with (String c s1 ++ s2)%string. constructor; auto.
  - inversion H; subst; [apply m_altl|apply m_altr]; auto.
  - inversion H as [| |? ? s1 s2 Ha Hb| | | |]; subst. apply IHr in Ha.
    change (String c (s1 ++ s2)) with (String c s1 ++ s2)%string. constructor; auto.
Qed.

Lemma seq_inv r1 r2 w :
  matches (Seq r1 r2) w ->
  exists s1 s2, (s1 ++ s2)%string = w /\ matches r1 s1 /\ matches r2 s2.
Proof. inversion 1; eauto. Qed.

Lemma deriv_complete r c s : matches r (String c s) -> matches (deriv c r) s.
Proof.
  revert s. induction r; simpl; intros s H.
  - inversion H.
  - inversion H.
  - inversion H as [|? ? Hp| | | | |]; subst. rewrite Hp. constructor.
  - apply seq_inv in H as (s1 & s2 & E & Ha & Hb).
    destruct s1 as [|c1 s1]; simpl in E.
    + subst s2. assert (N : nullable r1 = true) by (eapply nullable_complete; eauto).
      rewrite N. apply m_altr. auto.
    + injection E as <- <-. apply IHr1 in Ha.
      destruct (nullable r1); [apply m_altl|]; constructor; auto.
  - inversion H; subst; [apply m_altl|apply m_altr]; auto.
  - apply star_cons_inv in H as (s1 & s2 & -> & H1 & H2). constructor; auto.
Qed.

Theorem matchb_correct r s : matchb r s = true <-> matches r s.
Proof.
  revert r. induction s as [|c s IH]; intros r; simpl.
  - split; [apply nullable_sound | intros H; eapply nullable_complete; eauto].
  - rewrite IH. split; [apply deriv_sound | apply deriv_complete].
Qed.

(** ** Running an automaton over every word of a pattern

    For a deterministic automaton with states [0 .. n-1], [tr r] is the
    boolean matrix whose entry [(q, q')] is [true] when some word of [r] can
    lead from [q] to [q'].  It is computed by structural recursion; for a star
    the reflexive-transitive closure is iterated and then checked, with the
    full matrix as the fallback when the check fails. *)

Definition all_chars : list ascii := map ascii_of_nat (seq 0 256).

Lemma all_chars_in c : In c all_chars.
Proof.
  unfold all_chars. rewrite <- (ascii_nat_embedding c). apply in_map.
  apply in_seq. pose proof (nat_ascii_bounded c). lia.
Qed.

Section Automaton.

Variable n : nat.
Variable delta : nat -> ascii -> nat.

Fixpoint run (q : nat) (s : string) : nat :=
  match s with
  | EmptyString => q
  | String c s' => run (delta q c) s'
  end.

Definition mat := list (list bool).

Definition get (M : mat) (i j : nat) : bool := nth j (nth i M []) false.

Definition mk (f : nat -> nat -> bool) : mat :=
  map (fun i => map (f i) (seq 0 n)) (seq 0 n).

Definition mat_and_exists (A B : mat) : mat :=
  mk (fun i j => existsb (fun k => get A i k && get B k j) (seq 0 n)).

Definition star_step (T C : mat) : mat :=
  mk (fun i j => (i =? j) || existsb (fun k => get T i k && get C k j) (seq 0 n)).

Definition star_closed (T C : mat) : bool :=
  forallb (fun i =>
    get C i i &&
    forallb (fun k => forallb (fun j =>
      negb (get T i k && get C k j) || get C i j) (seq 0 n)) (seq 0 n)) (seq 0 n).

Definition star_mat (T : mat) : mat :=
  let C := Nat.iter n (star_step T) (mk Nat.eqb) in
  if star_closed T C then C else mk (fun _ _ => true).

Fixpoint tr (r : re) : mat :=
  match r with
  | Empty => mk (fun _ _ => false)
  | Eps => mk Nat.eqb
  | Chr p => let cs := filter p all_chars in mk (fun i j => existsb (fun c => delta i c =? j) cs)
  | Seq a b => mat_and_exists (tr a) (tr b)
  | Alt a b => let A := tr a in let B := tr b in mk (fun i j => get A i j || get B i j)
  | Star a => star_mat (tr a)
  end.

Hypothesis delta_lt : forall q c, q < n -> delta q c < n.

Lemma run_lt q s : q < n -> run q s < n.
Proof. revert q; induction s; simpl; auto. Qed.

Lemma run_app q s1 s2 : run q (s1 ++ s2) = run (run q s1) s2.
Proof. revert q; induction s1; simpl; auto. Qed.

Lemma nth_map_seq {A} (g : nat -> A) d i : i < n -> nth i (map g (seq 0 n)) d = g i.
Proof.
  intros Hi. rewrite (nth_indep _ d (g 0)) by (rewrite length_map, length_seq; lia).
  rewrite map_nth, seq_nth by lia. reflexivity.
Qed.

Lemma get_mk f i j : i < n -> j < n -> get (mk f) i j = f i j.
Proof. intros Hi Hj. unfold get, mk. rewrite !nth_map_seq by auto. reflexivity. Qed.

Lemma in_seq0 i : i < n -> In i (seq 0 n).
Proof. intros. apply in_seq. lia. Qed.

Lemma existsb_seq (f : nat -> bool) k : k < n -> f k = true -> existsb f (seq 0 n) = true.
Proof. intros Hk Hf. apply existsb_exists. exists k. split; auto. apply in_seq. lia. Qed.

Lemma star_mat_refl T i : i < n -> get (star_mat T) i i = true.
Proof.
  intros Hi. unfold star_mat. cbv zeta.
  destruct (star_closed T _) eqn:Hc.
  - unfold star_closed in Hc. rewrite forallb_forall in Hc.
    specialize (Hc i (in_seq0 i Hi)).
    apply andb_true_iff in Hc. tauto.
  - rewrite get_mk; auto.
Qed.

Lemma star_mat_trans T i k j :
  i < n -> k < n -> j < n ->
  get T i k = true -> get (star_mat T) k j = true -> get (star_mat T) i j = true.
Proof.
  intros Hi Hk Hj H1 H2. unfold star_mat in *. cbv zeta in *.
  destruct (star_closed T _) eqn:Hc.
  - unfold star_closed in Hc. rewrite forallb_forall in Hc.
    specialize (Hc i (in_seq0 i Hi)).
    apply andb_true_iff in Hc as [_ Hc]. rewrite forallb_forall in Hc.
    specialize (Hc k (in_seq0 k Hk)). rewrite forallb_forall in Hc.
    specialize (Hc j (in_seq0 j Hj)).
    rewrite H1, H2 in Hc. exact Hc.
  - rewrite get_mk; auto.
Qed.

(** Soundness: every word of [r] moves the automaton along an entry of [tr r]. *)
Theorem tr_sound r s q : matches r s -> q < n -> get (tr r) q (run q s) = true.
Proof.
  intros H. revert q.
  induction H as [|p c Hp|r1 r2 s1 s2 H1 IH1 H2 IH2|r1 r2 s H IH|r1 r2 s H IH
                 |r|r s1 s2 H1 IH1 H2 IH2]; intros q Hq; cbn [tr run].
  - rewrite get_mk by auto. apply Nat.eqb_refl.
  - rewrite get_mk by auto. apply existsb_exists. exists c.
    split; [apply filter_In; split; [apply all_chars_in | exact Hp]|]. apply Nat.eqb_refl.
  - unfold mat_and_exists. rewrite run_app, get_mk by (auto; apply run_lt, run_lt; auto).
    apply (existsb_seq _ (run q s1)); [apply run_lt; auto|].
    rewrite IH1, IH2 by (auto; apply run_lt; auto). reflexivity.
  - rewrite get_mk by (auto; apply run_lt; auto). rewrite IH; auto.
  - rewrite get_mk by (auto; apply run_lt; auto). rewrite IH, orb_true_r; auto.
  - apply star_mat_refl; auto.
  - rewrite run_app. apply (star_mat_trans _ _ (run q s1)); auto using run_lt.
Qed.

(** Two patterns share no word when no state is reachable from [q0] through
    both of them. *)
Definition disjoint_from (q0 : nat) (r1 r2 : re) : bool :=
  let A := tr r1 in let B := tr r2 in
  forallb (fun j => negb (get A q0 j && get B q0 j)) (seq 0 n).

Lemma disjoint_from_sound q0 r1 r2 s :
  q0 < n -> disjoint_from q0 r1 r2 = true -> matches r1 s -> matches r2 s -> False.
Proof.
  intros Hq Hd H1 H2. unfold disjoint_from in Hd. rewrite forallb_forall in Hd.
  specialize (Hd (run q0 s) (in_seq0 _ (run_lt q0 s Hq))).
  rewrite (tr_sound _ _ _ H1 Hq), (tr_sound _ _ _ H2 Hq) in Hd. discriminate.
Qed.

Lemma avoids_sound q0 j r s :
  q0 < n -> get (tr r) q0 j = false -> matches r s -> run q0 s <> j.
Proof.
  intros Hq Hj H E. rewrite <- E, (tr_sound _ _ _ H Hq) in Hj. discriminate.
Qed.

End Automaton.

(** ** Character classes of the JavaScript engine *)

Definition in_range (lo hi : nat) (c : ascii) : bool :=
  (lo <=? nat_of_ascii c) && (nat_of_ascii c <=? hi).

Definition is_digit := in_range 48 57.
Definition is_upper := in_range 65 90.
Definition is_lower := in_range 97 122.
Definition is_word (c : ascii) : bool :=
  is_upper c || is_lower c || is_digit c || Ascii.eqb c "_".
(** [\s]: the JavaScript white space and line terminators below 256. *)
Definition is_space (c : ascii) : bool :=
  existsb (Nat.eqb (nat_of_ascii c)) [9; 10; 11; 12; 13; 32; 160].
Definition is_line_terminator (c : ascii) : bool :=
  (nat_of_ascii c =? 10) || (nat_of_ascii c =? 13).

(** ** Parser for regular-expression literals

    The parser covers the syntax the module's literals use: alternation,
    capturing and [(?:...)] groups, classes with ranges and negation, the
    escapes [\d \D \w \W \s \S \n \t \r \f \v] and identity escapes of
    non-word characters, [.], and the quantifiers [? * + {m} {m,} {m,n}].
    Anything else (lazy quantifiers, assertions inside the pattern,
    back-references, ...) is refused with [None].  [parse_literal] reads a
    source of the shape [^...$]. *)

Definition escape_class (e : ascii) : option (ascii -> bool) :=
  if Ascii.eqb e "d" then Some is_digit
  else if Ascii.eqb e "D" then Some (fun x => negb (is_digit x))
  else if Ascii.eqb e "w" then Some is_word
  else if Ascii.eqb e "W" then Some (fun x => negb (is_word x))
  else if Ascii.eqb e "s" then Some is_space
  else if Ascii.eqb e "S" then Some (fun x => negb (is_space x))
  else None.

Definition escape_char (e : ascii) : option ascii :=
  if Ascii.eqb e "n" then Some (ascii_of_nat 10)
  else if Ascii.eqb e "t" then Some (ascii_of_nat 9)
  else if Ascii.eqb e "r" then Some (ascii_of_nat 13)
  else if Ascii.eqb e "f" then Some (ascii_of_nat 12)
  else if Ascii.eqb e "v" then Some (ascii_of_nat 11)
  else if is_word e then None
  else Some e.

Definition escape (e : ascii) : option (ascii -> bool) :=
  match escape_class e with
  | Some p => Some p
  | None => option_map Ascii.eqb (escape_char e)
  end.

Definition class_atom (s : string) : option ((ascii + (ascii -> bool)) * string) :=
  match s with
  | String c s1 =>
      if Ascii.eqb c "\" then
        match s1 with
        | String e s2 =>
            match escape_class e with
            | Some p => Some (inr p, s2)
            | None => option_map (fun x => (inl x, s2)) (escape_char e)
            end
        | EmptyString => None
        end
      else Some (inl c, s1)
  | EmptyString => None
  end.

Fixpoint p_class_items (f : nat) (s : string) (acc : ascii -> bool)
  : option ((ascii -> bool) * string) :=
  match f with
  | O => None
  | S f =>
    match s with
    | EmptyString => None
    | String c s1 =>
      if Ascii.eqb c "]" then Some (acc, s1) else
      match class_atom s with
      | Some (inl a, s2) =>
          match s2 with
          | String d (String b s3) =>
              if Ascii.eqb d "-" && negb (Ascii.eqb b "]") then
                match class_atom (String b s3) with
                | Some (inl b', s4) =>
                    if nat_of_ascii a <=? nat_of_ascii b' then
                      p_class_items f s4
                        (fun x => acc x || in_range (nat_of_ascii a) (nat_of_ascii b') x)
                    else None
                | _ => None
                end
              else p_class_items f s2 (fun x => acc x || Ascii.eqb a x)
          | _ => p_class_items f s2 (fun x => acc x || Ascii.eqb a x)
          end
      | Some (inr p, s2) => p_class_items f s2 (fun x => acc x || p x)
      | None => None
      end
    end
  end.

Definition p_class (f : nat) (s : string) : option (re * string) :=
  match s with
  | String c s1 =>
      if Ascii.eqb c "^" then
        option_map (fun '(p, s2) => (Chr (fun x => negb (p x)), s2))
          (p_class_items f s1 (fun _ => false))
      else option_map (fun '(p, s2) => (Chr p, s2)) (p_class_items f s (fun _ => false))
  | EmptyString => None
  end.

Fixpoint p_digits (s : string) (acc : nat) : nat * string :=
  match s with
  | String c s1 =>
      if is_digit c then p_digits s1 (10 * acc + (nat_of_ascii c - 48)) else (acc, s)
  | EmptyString => (acc, s)
  end.

Definition p_number (s : string) : option (nat * string) :=
  match s with
  | String c _ => if is_digit c then Some (p_digits s 0) else None
  | EmptyString => None
  end.

(** [{m}], [{m,}] and [{m,n}], read after the opening brace. *)
Definition p_braces (s : string) : option (nat * option nat * string) :=
  match p_number s with
  | Some (m, String c s1) =>
      if Ascii.eqb c "}" then Some (m, Some m, s1)
      else if Ascii.eqb c "," then
        match s1 with
        | String d s2 =>
            if Ascii.eqb d "}" then Some (m, None, s2)
            else match p_number s1 with
                 | Some (k, String e s3) =>
                     if Ascii.eqb e "}" && (m <=? k) then Some (m, Some k, s3) else None
                 | _ => None
                 end
        | EmptyString => None
        end
      else None
  | _ => None
  end.

Fixpoint pow (a : re) (m : nat) : re :=
  match m with O => Eps | S m => Seq a (pow a m) end.

Fixpoint upto (a : re) (k : nat) : re :=
  match k with O => Eps | S k => Alt Eps (Seq a (upto a k)) end.

Definition rep (a : re) (m : nat) (mx : option nat) : re :=
  match mx with
  | Some k => Seq (pow a m) (upto a (k - m))
  | None => Seq (pow a m) (Star a)
  end.

Definition p_quant (a : re) (s : string) : option (re * string) :=
  match s with
  | String c s1 =>
      if Ascii.eqb c "?" then Some (Alt Eps a, s1)
      else if Ascii.eqb c "*" then Some (Star a, s1)
      else if Ascii.eqb c "+" then Some (Seq a (Star a), s1)
      else if Ascii.eqb c "{" then
        option_map (fun '(m, mx, s2) => (rep a m mx, s2)) (p_braces s1)
      else Some (a, s)
  | EmptyString => Some (a, s)
  end.

Definition seq_stop (c : ascii) : bool := existsb (Ascii.eqb c) ["|"; ")"; "$"]%char.
Definition atom_special (c : ascii) : bool :=
  existsb (Ascii.eqb c) ["^"; "$"; "*"; "+"; "?"; "{"; "|"; ")"]%char.

(** The text after [(]: a capturing group, or [?:] and a non-capturing one. *)
Definition group_body (s : string) : option string :=
  match s with
  | String q s2 =>
      if Ascii.eqb q "?" then
        match s2 with
        | String col s3 => if Ascii.eqb col ":" then Some s3 else None
        | EmptyString => None
        end
      else Some s
  | EmptyString => Some s
  end.

Fixpoint p_disj (f : nat) (s : string) : option (re * string) :=
  match f with
  | O => None
  | S f =>
    match p_seq f s with
    | Some (r, String c s1) =>
        if Ascii.eqb c "|" then
          match p_disj f s1 with
          | Some (r2, s2) => Some (Alt r r2, s2)
          | None => None
          end
        else Some (r, String c s1)
    | res => res
    end
  end
with p_seq (f : nat) (s : string) : option (re * string) :=
  match f with
  | O => None
  | S f =>
    match s with
    | EmptyString => Some (Eps, s)
    | String c _ =>
        if seq_stop c then Some (Eps, s) else
        match p_term f s with
        | Some (r, s1) =>
            match p_seq f s1 with
            | Some (r2, s2) => Some (Seq r r2, s2)
            | None => None
            end
        | None => None
        end
    end
  end
with p_term (f : nat) (s : string) : option (re * string) :=
  match f with
  | O => None
  | S f =>
    match p_atom f s with
    | Some (a, s1) => p_quant a s1
    | None => None
    end
  end
with p_atom (f : nat) (s : string) : option (re * string) :=
  match f with
  | O => None
  | S f =>
    match s with
    | String c s1 =>
        if Ascii.eqb c "(" then
          match group_body s1 with
          | Some b =>
              match p_disj f b with
              | Some (r, String cl s3) => if Ascii.eqb cl ")" then Some (r, s3) else None
              | _ => None
              end
          | None => None
          end
        else if Ascii.eqb c "[" then p_class f s1
        else if Ascii.eqb c "\" then
          match s1 with
          | String e s2 => option_map (fun p => (Chr p, s2)) (escape e)
          | EmptyString => None
          end
        else if Ascii.eqb c "." then Some (Chr (fun x => negb (is_line_terminator x)), s1)
        else if atom_special c then None
        else Some (Chr (Ascii.eqb c), s1)
    | EmptyString => None
    end
  end.

Definition parse_literal (src : string) : option re :=
  match src with
  | String c body =>
      if Ascii.eqb c "^" then
        match p_seq (8 * String.length body + 8) body with
        | Some (r, String d EmptyString) => if Ascii.eqb d "$" then Some r else None
        | _ => None
        end
      else None
  | EmptyString => None
  end.

(** The body of a literal [/^...$/]; [Empty] for a source outside the fragment
    (none of the module's sources, see [Hcnc.literals_parse]). *)
Definition lit (src : string) : re :=
  match parse_literal src with Some r => r | None => Empty end.

(** ** Two automata used below

    [count_delta p k] counts the characters satisfying [p] in the current run,
    up to [k]; state [k] is absorbing.  [bem_dd_delta] reaches state 2 on a
    word of [[a-z0-9_-]] that contains [--], and state 3 (absorbing) on any
    character outside that class. *)

Definition count_delta (p : ascii -> bool) (k : nat) (q : nat) (c : ascii) : nat :=
  if k <=? q then k else if p c then S q else 0.

Lemma count_delta_lt p k q c : q < S k -> count_delta p k q c < S k.
Proof.
  unfold count_delta. intros H. destruct (k <=? q) eqn:E; [lia|].
  apply Nat.leb_gt in E. destruct (p c); lia.
Qed.

Fixpoint all_chars_of (p : ascii -> bool) (s : string) : bool :=
  match s with
  | EmptyString => true
  | String c s' => p c && all_chars_of p s'
  end.

Lemma count_run_absorb p k s : run (count_delta p k) k s = k.
Proof.
  induction s; simpl; auto. unfold count_delta at 2. rewrite Nat.leb_refl. auto.
Qed.

Lemma count_run_word p k w q :
  all_chars_of p w = true -> k <= q + String.length w -> run (count_delta p k) q w = k
  \/ q > k.
Proof.
  revert q. induction w as [|c w IH]; simpl; intros q Hw Hl.
  - destruct (Nat.eq_dec q k); [left; auto | right; lia].
  - apply andb_true_iff in Hw as [Hc Hw]. unfold count_delta at 2.
    destruct (k <=? q) eqn:E.
    + apply Nat.leb_le in E. destruct (Nat.eq_dec q k).
      * subst. left. apply count_run_absorb.
      * right. lia.
    + apply Nat.leb_gt in E. rewrite Hc. destruct (IH (S q) Hw ltac:(lia)); [left; auto | lia].
Qed.

Lemma count_run_lt p k q s : q < S k -> run (count_delta p k) q s < S k.
Proof. apply run_lt. apply count_delta_lt. Qed.

(** A word containing [k] consecutive characters satisfying [p] drives the
    counting automaton to [k]. *)
Lemma count_run_infix p k u w v :
  all_chars_of p w = true -> String.length w = k ->
  run (count_delta p k) 0 (u ++ w ++ v) = k.
Proof.
  intros Hw Hl. rewrite !run_app.
  pose proof (count_run_lt p k 0 u ltac:(lia)) as Hu.
  destruct (count_run_word p k w (run (count_delta p k) 0 u) Hw ltac:(lia)) as [E|E]; [|lia].
  rewrite E. apply count_run_absorb.
Qed.

Definition bem_char (c : ascii) : bool :=
  is_lower c || is_digit c || Ascii.eqb c "_" || Ascii.eqb c "-".

Definition bem_dd_delta (q : nat) (c : ascii) : nat :=
  if negb (bem_char c) then 3
  else if 2 <=? q then q
  else if Ascii.eqb c "-" then S q else 0.

Lemma bem_dd_delta_lt q c : q < 4 -> bem_dd_delta q c < 4.
Proof.
  unfold bem_dd_delta. intros H. destruct (negb _); [lia|].
  destruct (2 <=? q) eqn:E; [lia|]. apply Nat.leb_gt in E.
  destruct (Ascii.eqb c "-"); lia.
Qed.

(** ** Structural equality of patterns, classes compared on every character *)

Fixpoint re_eqb (r1 r2 : re) : bool :=
  match r1, r2 with
  | Empty, Empty | Eps, Eps => true
  | Chr p, Chr q => forallb (fun c => Bool.eqb (p c) (q c)) all_chars
  | Seq a b, Seq c d | Alt a b, Alt c d => re_eqb a c && re_eqb b d
  | Star a, Star c => re_eqb a c
  | _, _ => false
  end.

Lemma re_eqb_matches r1 s : matches r1 s -> forall r2, re_eqb r1 r2 = true -> matches r2 s.
Proof.
  induction 1 as [|p c Hp|r1 r2 s1 s2 H1 IH1 H2 IH2|r1 r2 s H IH|r1 r2 s H IH
                 |r|r s1 s2 H1 IH1 H2 IH2];
    intros [| |q|c1 c2|c1 c2|c1] E; cbn [re_eqb] in E; try discriminate.
  - constructor.
  - constructor. rewrite forallb_forall in E. specialize (E c (all_chars_in c)).
    rewrite Hp in E. destruct (q c); auto.
  - apply andb_true_iff in E as [E1 E2]. constructor; auto.
  - apply andb_true_iff in E as [E1 E2]. apply m_altl; auto.
  - apply andb_true_iff in E as [E1 E2]. apply m_altr; auto.
  - constructor.
  - constructor; [apply IH1 | apply (IH2 (Star c1))]; auto.
Qed.

End Regex.

(** * String built-ins of JavaScript used by the module *)
Module Js.

Open Scope string_scope.

(** [s.startsWith(prefix)] *)
Fixpoint starts_with (prefix s : string) : bool :=
  match prefix, s with
  | EmptyString, _ => true
  | String a p', String b s' => Ascii.eqb a b && starts_with p' s'
  | String _ _, EmptyString => false
  end.

(** [s.includes(sub)] *)
Fixpoint includes (s sub : string) : bool :=
  starts_with sub s ||
  match s with
  | EmptyString => false
  | String _ s' => includes s' sub
  end.

(** [s.slice(i)] for [i >= 0] *)
Definition slice_from (s : string) (i : nat) : string :=
  substring i (String.length s - i) s.

(** [s.charAt(0)] *)
Definition char_at0 (s : string) : string :=
  match s with
  | String c _ => String c EmptyString
  | EmptyString => EmptyString
  end.

(** [s.toUpperCase()] on the ASCII letters; other code units are kept. *)
Fixpoint to_upper (s : string) : string :=
  match s with
  | EmptyString => EmptyString
  | String c s' =>
      String (if Regex.is_lower c then ascii_of_nat (nat_of_ascii c - 32) else c)
             (to_upper s')
  end.

(** [s.replace(pat, rep)] with a string pattern: the first occurrence only
    (the replacement strings of the module contain no [$]). *)
Fixpoint replace_first (s pat rep : string) : string :=
  if starts_with pat s then rep ++ substring (String.length pat) (String.length s) s
  else match s with
       | EmptyString => EmptyString
       | String c s' => String c (replace_first s' pat rep)
       end.

(** [list.join(sep)] *)
Fixpoint join (sep : string) (l : list string) : string :=
  match l with
  | [] => EmptyString
  | [x] => x
  | x :: l' => x ++ sep ++ join sep l'
  end.

(** [s.split('\n')] *)
Fixpoint split_lines (s : string) : list string :=
  match s with
  | EmptyString => [EmptyString]
  | String c s' =>
      if Nat.eqb (nat_of_ascii c) 10 then EmptyString :: split_lines s'
      else match split_lines s' with
           | [] => [String c EmptyString]
           | x :: xs => String c x :: xs
           end
  end.

(** [s.trim()]: white space and line terminators removed at both ends. *)
Fixpoint trim_start (s : string) : string :=
  match s with
  | String c s' => if Regex.is_space c then trim_start s' else s
  | EmptyString => EmptyString
  end.

Fixpoint trim_end (s : string) : string :=
  match s with
  | EmptyString => EmptyString
  | String c s' =>
      match trim_end s' with
      | EmptyString => if Regex.is_space c then EmptyString else String c EmptyString
      | r => String c r
      end
  end.

Definition trim (s : string) : string := trim_end (trim_start s).

(** The double quote, for the messages built with template strings. *)
Definition dq : string := String (ascii_of_nat 34) EmptyString.

Definition quoted (s : string) : string := dq ++ s ++ dq.

End Js.

(** * The module [utils.ts] *)
Module Hcnc.

Import Regex.
Open Scope string_scope.

(** ** Types *)

Inductive HcncClassType :=
| block
| element
| nested_element
| modifier
| state
| utility.

Record ValidationResult := {
  valid : bool;
  type : option HcncClassType;
  message : option string
}.

(** An absent option is [None] ([customUtilities]) or [false]: the code
    reads each of them through [config?.x]. *)
Record HcncConfig := {
  customUtilities : option (list string);
  allowUnknown : bool;
  strictBem : bool
}.

Definition no_config : HcncConfig :=
  {| customUtilities := None; allowUnknown := false; strictBem := false |}.

(** ** Regex patterns

    A RegExp literal with its source text and whether it carries the [g] or
    [y] flag, the two flags under which [test] reads and writes the
    object's [lastIndex]. *)
Record RegExpLit := {
  source : string;
  global_or_sticky : bool
}.

(** The module's literals carry no flag. *)
Definition re_lit (src : string) : RegExpLit :=
  {| source := src; global_or_sticky := false |}.

Definition BLOCK_PATTERN := re_lit "^[a-z][a-z0-9]*(?:-[a-z0-9]+)*$".

Definition ELEMENT_PATTERN :=
  re_lit "^[a-z][a-z0-9]*(?:-[a-z0-9]+)*_[a-z][a-z0-9]*(?:-[a-z0-9]+)*$".

Definition NESTED_ELEMENT_PATTERN :=
  re_lit "^[a-z][a-z0-9]*(?:-[a-z0-9]+)*_[a-z][a-z0-9]*(?:-[a-z0-9]+)*__[a-z][a-z0-9]*(?:-[a-z0-9]+)*$".

Definition MODIFIER_PATTERN :=
  re_lit "^[a-z][a-z0-9]*(?:-[a-z0-9]+)*(?:_[a-z][a-z0-9]*(?:-[a-z0-9]+)*)?(?:__[a-z][a-z0-9]*(?:-[a-z0-9]+)*)?--[a-z][a-z0-9]*(?:-[a-z0-9]+)*$".

Definition STATE_PATTERN := re_lit "^(is|has)[A-Z][a-zA-Z0-9]*$".

Definition UTILITY_SOURCES : list string := [
    (* Flexbox *)
    "^flex$";
    "^inline-flex$";
    "^flex-(row|col|wrap|nowrap|1|auto|initial|none)$";
    "^flex-(row|col)-reverse$";
    "^items-(start|end|center|baseline|stretch)$";
    "^justify-(start|end|center|between|around|evenly)$";
    "^self-(auto|start|end|center|stretch|baseline)$";
    "^grow(-0)?$";
    "^shrink(-0)?$";
    "^order-\d+$";
    (* Grid *)
    "^grid$";
    "^inline-grid$";
    "^grid-cols-\d+$";
    "^grid-rows-\d+$";
    "^col-span-\d+$";
    "^row-span-\d+$";
    "^gap-\d+$";
    "^gap-x-\d+$";
    "^gap-y-\d+$";
    (* Spacing (margin, padding) *)
    "^[mp][trblxy]?-\d+(\.\d+)?$";
    "^-[mp][trblxy]?-\d+(\.\d+)?$";
    "^space-[xy]-\d+$";
    "^-space-[xy]-\d+$";
    (* Sizing *)
    "^[wh]-(full|screen|auto|min|max|fit|\d+(\.\d+)?|(\d+\/\d+))$";
    "^min-[wh]-(full|screen|0|\d+(\.\d+)?)$";
    "^max-[wh]-(full|screen|none|\d+(\.\d+)?)$";
    "^size-\d+$";
    (* Typography *)
    "^text-(xs|sm|base|lg|xl|2xl|3xl|4xl|5xl|6xl|7xl|8xl|9xl)$";
    "^text-(left|center|right|justify|start|end)$";
    "^text-\[.+\]$";
    "^font-(thin|extralight|light|normal|medium|semibold|bold|extrabold|black)$";
    "^font-(sans|serif|mono)$";
    "^leading-(none|tight|snug|normal|relaxed|loose|\d+)$";
    "^tracking-(tighter|tight|normal|wide|wider|widest)$";
    "^uppercase$";
    "^lowercase$";
    "^capitalize$";
    "^normal-case$";
    "^italic$";
    "^not-italic$";
    "^underline$";
    "^overline$";
    "^line-through$";
    "^no-underline$";
    "^truncate$";
    "^whitespace-(normal|nowrap|pre|pre-line|pre-wrap|break-spaces)$";
    "^break-(normal|words|all|keep)$";
    (* Colors (simplified - matches common patterns) *)
    "^(text|bg|border|ring|shadow)-(transparent|current|inherit)$";
    "^(text|bg|border|ring)-(black|white)$";
    "^(text|bg|border|ring)-(slate|gray|zinc|neutral|stone|red|orange|amber|yellow|lime|green|emerald|teal|cyan|sky|blue|indigo|violet|purple|fuchsia|pink|rose)-\d{2,3}$";
    "^(text|bg|border|ring)-\[#[0-9a-fA-F]{3,8}\]$";
    "^(text|bg|border|ring)-\[rgb.+\]$";
    (* Backgrounds *)
    "^bg-(fixed|local|scroll)$";
    "^bg-(bottom|center|left|left-bottom|left-top|right|right-bottom|right-top|top)$";
    "^bg-(repeat|no-repeat|repeat-x|repeat-y|repeat-round|repeat-space)$";
    "^bg-(auto|cover|contain)$";
    "^bg-gradient-to-(t|tr|r|br|b|bl|l|tl)$";
    "^from-\w+(-\d+)?$";
    "^via-\w+(-\d+)?$";
    "^to-\w+(-\d+)?$";
    (* Borders *)
    "^border(-[trblxy])?(-\d+)?$";
    "^border-(solid|dashed|dotted|double|hidden|none)$";
    "^rounded(-[trblxy])?(-none|-sm|-md|-lg|-xl|-2xl|-3xl|-full)?$";
    "^divide-[xy](-\d+)?$";
    "^divide-(solid|dashed|dotted|double|none)$";
    "^ring(-\d+)?$";
    "^ring-inset$";
    "^ring-offset-\d+$";
    (* Effects *)
    "^shadow(-sm|-md|-lg|-xl|-2xl|-inner|-none)?$";
    "^opacity-\d+$";
    "^mix-blend-\w+$";
    "^bg-blend-\w+$";
    (* Filters *)
    "^blur(-sm|-md|-lg|-xl|-2xl|-3xl|-none)?$";
    "^brightness-\d+$";
    "^contrast-\d+$";
    "^grayscale(-0)?$";
    "^hue-rotate-\d+$";
    "^-hue-rotate-\d+$";
    "^invert(-0)?$";
    "^saturate-\d+$";
    "^sepia(-0)?$";
    "^drop-shadow(-sm|-md|-lg|-xl|-2xl|-none)?$";
    "^backdrop-blur(-sm|-md|-lg|-xl|-2xl|-3xl|-none)?$";
    (* Layout *)
    "^block$";
    "^inline-block$";
    "^inline$";
    "^hidden$";
    "^contents$";
    "^flow-root$";
    "^list-item$";
    "^list-(none|disc|decimal)$";
    "^float-(left|right|none)$";
    "^clear-(left|right|both|none)$";
    "^object-(contain|cover|fill|none|scale-down)$";
    "^object-(bottom|center|left|left-bottom|left-top|right|right-bottom|right-top|top)$";
    "^overflow(-[xy])?-(auto|hidden|clip|visible|scroll)$";
    "^overscroll(-[xy])?-(auto|contain|none)$";
    (* Positioning *)
    "^(static|fixed|absolute|relative|sticky)$";
    "^(top|right|bottom|left|inset)(-[xy])?-\d+(\.\d+)?$";
    "^-(top|right|bottom|left|inset)(-[xy])?-\d+(\.\d+)?$";
    "^(top|right|bottom|left|inset)(-[xy])?-(auto|full|1\/2)$";
    "^z-\d+$";
    "^z-(auto)$";
    "^-z-\d+$";
    (* Transforms *)
    "^scale(-[xy])?-\d+$";
    "^rotate-\d+$";
    "^-rotate-\d+$";
    "^translate-[xy]-\d+(\.\d+)?$";
    "^-translate-[xy]-\d+(\.\d+)?$";
    "^skew-[xy]-\d+$";
    "^-skew-[xy]-\d+$";
    "^origin-(center|top|top-right|right|bottom-right|bottom|bottom-left|left|top-left)$";
    "^transform$";
    "^transform-none$";
    "^transform-gpu$";
    (* Transitions & Animation *)
    "^transition(-all|-colors|-opacity|-shadow|-transform|-none)?$";
    "^duration-\d+$";
    "^ease-(linear|in|out|in-out)$";
    "^delay-\d+$";
    "^animate-(none|spin|ping|pulse|bounce)$";
    (* Interactivity *)
    "^cursor-(auto|default|pointer|wait|text|move|help|not-allowed|none|context-menu|progress|cell|crosshair|vertical-text|alias|copy|no-drop|grab|grabbing|all-scroll|col-resize|row-resize|n-resize|e-resize|s-resize|w-resize|ne-resize|nw-resize|se-resize|sw-resize|ew-resize|ns-resize|nesw-resize|nwse-resize|zoom-in|zoom-out)$";
    "^resize(-none|-x|-y)?$";
    "^select-(none|text|all|auto)$";
    "^pointer-events-(none|auto)$";
    "^touch-(auto|none|pan-x|pan-left|pan-right|pan-y|pan-up|pan-down|pinch-zoom|manipulation)$";
    "^scroll-(auto|smooth)$";
    "^scroll-[mp][trblxy]?-\d+$";
    "^snap-(start|end|center|align-none)$";
    "^snap-(normal|always)$";
    "^snap-(none|x|y|both|mandatory|proximity)$";
    "^appearance-none$";
    "^outline(-none|-dashed|-dotted|-double)?$";
    "^outline-\d+$";
    "^outline-offset-\d+$";
    "^accent-\w+(-\d+)?$";
    "^caret-\w+(-\d+)?$";
    "^will-change-(auto|scroll|contents|transform)$";
    (* Accessibility *)
    "^sr-only$";
    "^not-sr-only$";
    "^forced-color-adjust-(auto|none)$";
    (* Tables *)
    "^table(-auto|-fixed)?$";
    "^table-(caption|cell|column|column-group|footer-group|header-group|row-group|row)$";
    "^border-(collapse|separate)$";
    "^border-spacing(-[xy])?-\d+$";
    "^caption-(top|bottom)$";
    (* SVG *)
    "^fill-(none|inherit|current|\w+(-\d+)?)$";
    "^stroke-(none|inherit|current|\w+(-\d+)?)$";
    "^stroke-\d+$";
    (* Aspect ratio *)
    "^aspect-(auto|square|video)$";
    "^aspect-\[\d+\/\d+\]$";
    (* Columns *)
    "^columns-\d+$";
    "^columns-(auto|3xs|2xs|xs|sm|md|lg|xl|2xl|3xl|4xl|5xl|6xl|7xl)$";
    "^break-(before|after|inside)-(auto|avoid|all|avoid-page|page|left|right|column)$";
    (* Box decoration *)
    "^box-(border|content)$";
    "^decoration-(clone|slice)$";
    "^isolation-(auto|isolate)$";
    (* Container *)
    "^container$";
    "^mx-auto$";
    (* Visibility *)
    "^visible$";
    "^invisible$";
    "^collapse$"
  ].

Definition UTILITY_PATTERNS : list RegExpLit := map re_lit UTILITY_SOURCES.

(** ** The module-level RegExp objects and their [lastIndex] *)

Inductive PatternId :=
| P_BLOCK
| P_ELEMENT
| P_NESTED_ELEMENT
| P_MODIFIER
| P_STATE
| P_UTILITY (i : nat).

Definition PatternId_eqb (a b : PatternId) : bool :=
  match a, b with
  | P_BLOCK, P_BLOCK | P_ELEMENT, P_ELEMENT | P_NESTED_ELEMENT, P_NESTED_ELEMENT
  | P_MODIFIER, P_MODIFIER | P_STATE, P_STATE => true
  | P_UTILITY i, P_UTILITY j => Nat.eqb i j
  | _, _ => false
  end.

Definition pattern (id : PatternId) : RegExpLit :=
  match id with
  | P_BLOCK => BLOCK_PATTERN
  | P_ELEMENT => ELEMENT_PATTERN
  | P_NESTED_ELEMENT => NESTED_ELEMENT_PATTERN
  | P_MODIFIER => MODIFIER_PATTERN
  | P_STATE => STATE_PATTERN
  | P_UTILITY i => nth i UTILITY_PATTERNS (re_lit "")
  end.

(** The mutable part of the module: the [lastIndex] of each object. *)
Definition Store := PatternId -> nat.

Definition store0 : Store := fun _ => 0.

Definition set_lastIndex (st : Store) (id : PatternId) (v : nat) : Store :=
  fun id' => if PatternId_eqb id id' then v else st id'.

(** Computations over the store, and over the store with exceptions. *)
Definition St (A : Type) := Store -> A * Store.

Definition retS {A} (a : A) : St A := fun st => (a, st).

Definition bindS {A B} (m : St A) (k : A -> St B) : St B :=
  fun st => let '(a, st') := m st in k a st'.

Notation "x <-S m ;; k" := (bindS m (fun x => k)) (at level 61, m at next level, right associativity).

(** [RegExp.prototype.test] on an object of the shape [/^body$/]: without the
    [g] or [y] flag the match is tried on the whole string and [lastIndex] is
    untouched; with one, the search starts at [lastIndex], so [^] only
    matches when it is 0, and [lastIndex] becomes the end of the match or 0. *)
Definition test (id : PatternId) (s : string) : St bool :=
  fun st =>
    let o := pattern id in
    if global_or_sticky o then
      if Nat.eqb (st id) 0 && matchb (lit (source o)) s
      then (true, set_lastIndex st id (String.length s))
      else (false, set_lastIndex st id 0)
    else (matchb (lit (source o)) s, st).

(** ** Validation functions *)

Definition isBlock_st (className : string) : St bool := test P_BLOCK className.
Definition isElement_st (className : string) : St bool := test P_ELEMENT className.
Definition isNestedElement_st (className : string) : St bool := test P_NESTED_ELEMENT className.
Definition isModifier_st (className : string) : St bool := test P_MODIFIER className.
Definition isStateClass_st (className : string) : St bool := test P_STATE className.

(** [for (const pattern of UTILITY_PATTERNS) if (pattern.test(className)) return true;] *)
Fixpoint test_builtin_utilities (ids : list nat) (className : string) : St bool :=
  match ids with
  | [] => retS false
  | i :: ids' =>
      b <-S test (P_UTILITY i) className ;;
      if b then retS true else test_builtin_utilities ids' className
  end.

Definition builtin_utility_st (className : string) : St bool :=
  test_builtin_utilities (seq 0 (length UTILITY_PATTERNS)) className.

(** [/^is[A-Z]/.test(s)] and [/^has[A-Z]/.test(s)] *)
Definition prefix_then_upper (prefix s : string) : bool :=
  Js.starts_with prefix s &&
  match String.get (String.length prefix) s with
  | Some c => is_upper c
  | None => false
  end.

(** [/[A-Z]/.test(s)] *)
Fixpoint has_upper (s : string) : bool :=
  match s with
  | EmptyString => false
  | String c s' => is_upper c || has_upper s'
  end.

Definition collapse_suggestion (className : string) : string :=
  "Use single underscore for first-level elements: "
    ++ Js.quoted (Js.replace_first className "__" "_").

Definition is_suggestion (className : string) : string :=
  "State classes should use camelCase: "
    ++ Js.quoted ("is" ++ Js.to_upper (Js.char_at0 (Js.slice_from className 2))
                       ++ Js.slice_from className 3).

Definition has_suggestion (className : string) : string :=
  "State classes should use camelCase: "
    ++ Js.quoted ("has" ++ Js.to_upper (Js.char_at0 (Js.slice_from className 3))
                        ++ Js.slice_from className 4).

Definition lowercase_suggestion : string :=
  "HCNC classes (except states) should be lowercase".

Definition nesting_suggestion : string :=
  "Maximum nesting is 2 levels (use __ for nested elements)".

Section Engine.

(** [new RegExp(patternStr)] on a caller-supplied source: the exception the
    engine throws for a malformed source, or the [test] method of the fresh,
    flagless object (a search anywhere in the string, as the engine defines
    it for that source). *)
Variable SyntaxError : Type.
Variable RegExp : string -> SyntaxError + (string -> bool).

Definition M (A : Type) := Store -> (SyntaxError + A) * Store.

Definition ret {A} (a : A) : M A := fun st => (inr a, st).

Definition throw {A} (e : SyntaxError) : M A := fun st => (inl e, st).

Definition lift {A} (m : St A) : M A := fun st => let '(a, st') := m st in (inr a, st').

Definition bind {A B} (m : M A) (k : A -> M B) : M B :=
  fun st =>
    match m st with
    | (inl e, st') => (inl e, st')
    | (inr a, st') => k a st'
    end.

Local Notation "x <- m ;; k" := (bind m (fun x => k)) (at level 61, m at next level, right associativity).

(** [for (const patternStr of customPatterns) { const pattern = new RegExp(patternStr);
    if (pattern.test(className)) return true; }] *)
Fixpoint test_custom (customPatterns : list string) (className : string) : M bool :=
  match customPatterns with
  | [] => ret false
  | patternStr :: rest =>
      match RegExp patternStr with
      | inl e => throw e
      | inr pattern_test => if pattern_test className then ret true else test_custom rest className
      end
  end.

Definition isUtilityClass_st (className : string) (customPatterns : option (list string))
  : M bool :=
  b <- lift (builtin_utility_st className) ;;
  if b then ret true else
  match customPatterns with
  | Some ps => test_custom ps className
  | None => ret false
  end.

Definition isHcncClass_st (className : string) : M bool :=
  u <- isUtilityClass_st className None ;;
  if u then ret false else
  lift (b <-S isBlock_st className ;; if b then retS true else
        b <-S isElement_st className ;; if b then retS true else
        b <-S isNestedElement_st className ;; if b then retS true else
        isModifier_st className).

Definition getClassType_st (className : string) (config : HcncConfig)
  : M (option HcncClassType) :=
  b <- lift (isStateClass_st className) ;; if b then ret (Some state) else
  b <- lift (isModifier_st className) ;; if b then ret (Some modifier) else
  b <- lift (isNestedElement_st className) ;; if b then ret (Some nested_element) else
  b <- lift (isElement_st className) ;; if b then ret (Some element) else
  isUtility <- isUtilityClass_st className (customUtilities config) ;;
  if isUtility then (if strictBem config then ret None else ret (Some utility)) else
  b <- lift (isBlock_st className) ;; if b then ret (Some block) else ret None.

Definition validateClassName_st (className : string) (config : HcncConfig)
  : M ValidationResult :=
  type <- getClassType_st className config ;;
  match type with
  | Some k => ret {| valid := true; type := Some k; message := None |}
  | None =>
    if allowUnknown config then
      ret {| valid := true; type := None;
             message := Some ("Unknown class " ++ Js.quoted className ++ " (allowed by config)") |}
    else
      let s1 := if Js.includes className "__" && negb (Js.includes className "_")
                then [collapse_suggestion className] else [] in
      let s2 := if Js.starts_with "is" className && negb (prefix_then_upper "is" className)
                then [is_suggestion className] else [] in
      let s3 := if Js.starts_with "has" className && negb (prefix_then_upper "has" className)
                then [has_suggestion className] else [] in
      upper_not_state <-
        lift (if has_upper className
              then (b <-S isStateClass_st className ;; retS (negb b))
              else retS false) ;;
      let s4 := if upper_not_state then [lowercase_suggestion] else [] in
      let s5 := if Js.includes className "___" then [nesting_suggestion] else [] in
      let suggestions := app s1 (app s2 (app s3 (app s4 s5))) in
      let msg :=
        match suggestions with
        | [] => "Class " ++ Js.quoted className ++ " does not match HCNC naming convention"
        | _ => "Class " ++ Js.quoted className ++ " does not match HCNC convention. "
                 ++ Js.join ". " suggestions
        end in
      ret {| valid := false; type := None; message := Some msg |}
  end.

End Engine.

Arguments ret {SyntaxError A} a _.
Arguments bind {SyntaxError A B} m k _.
Arguments lift {SyntaxError A} m _.
Arguments throw {SyntaxError A} e _.
Arguments test_custom {SyntaxError} RegExp customPatterns className _.
Arguments isUtilityClass_st {SyntaxError} RegExp className customPatterns _.
Arguments isHcncClass_st {SyntaxError} RegExp className _.
Arguments getClassType_st {SyntaxError} RegExp className config _.
Arguments validateClassName_st {SyntaxError} RegExp className config _.

(** ** A call on a freshly loaded module *)

Definition isBlock (className : string) : bool := fst (isBlock_st className store0).
Definition isElement (className : string) : bool := fst (isElement_st className store0).
Definition isNestedElement (className : string) : bool :=
  fst (isNestedElement_st className store0).
Definition isModifier (className : string) : bool := fst (isModifier_st className store0).
Definition isStateClass (className : string) : bool := fst (isStateClass_st className store0).
Definition builtin_utility (className : string) : bool :=
  fst (builtin_utility_st className store0).

Definition isUtilityClass {E} RegExp (className : string) (customPatterns : option (list string))
  : E + bool :=
  fst (isUtilityClass_st RegExp className customPatterns store0).

Definition isHcncClass {E} RegExp (className : string) : E + bool :=
  fst (isHcncClass_st RegExp className store0).

Definition getClassType {E} RegExp (className : string) (config : HcncConfig)
  : E + option HcncClassType :=
  fst (getClassType_st RegExp className config store0).

Definition validateClassName {E} RegExp (className : string) (config : HcncConfig)
  : E + ValidationResult :=
  fst (validateClassName_st RegExp className config store0).

(** ** SCSS nesting expansion *)

(** The selector regex of [expandScssNesting] is [^(G)T$], where [G] and [T]
    are the bodies of the two literals below: it is cut at its capture group. *)
Definition SELECTOR_GROUP :=
  re_lit "^[.#]?[a-zA-Z_&][a-zA-Z0-9_-]*(?:\s*,\s*[.#]?[a-zA-Z_&][a-zA-Z0-9_-]*)*$".
Definition SELECTOR_TAIL := re_lit "^\s*\{?\s*$".

Fixpoint splits (s : string) : list (string * string) :=
  (EmptyString, s) ::
  match s with
  | EmptyString => []
  | String c s' => map (fun '(a, b) => (String c a, b)) (splits s') end.

(** [trimmed.match(...)], group 1 of the match.  Backtracking with greedy
    quantifiers tries the longest group first. *)
Definition selector_match (trimmed : string) : option string :=
  match find (fun '(g, rest) =>
                matchb (lit (source SELECTOR_GROUP)) g && matchb (lit (source SELECTOR_TAIL)) rest)
             (rev (splits trimmed)) with
  | Some (g, _) => Some g
  | None => None
  end.

(** One iteration of [for (const line of lines)]: the collected selectors
    and the stack of open selectors (an array: [push] and [pop] at its end). *)
Definition scss_step (acc : list string * list string) (line : string)
  : list string * list string :=
  let '(expanded, stack) := acc in
  let trimmed := Js.trim line in
  let '(expanded, stack) :=
    match selector_match trimmed with
    | Some selector0 =>
        let selector :=
          if Js.starts_with "&" selector0
          then last stack "" ++ Js.slice_from selector0 1
          else selector0 in
        let expanded :=
          if Js.starts_with "." selector
          then app expanded [Js.slice_from selector 1]
          else expanded in
        (expanded, app stack [selector])
    | None => (expanded, stack)
    end in
  if Js.includes trimmed "}" then (expanded, removelast stack) else (expanded, stack).

Definition expandScssNesting (scss : string) : list string :=
  fst (fold_left scss_step (Js.split_lines scss) ([], [])).

(** ** Calls leave the module state alone *)

Definition stateless {A} (m : St A) : Prop := forall st, m st = (fst (m store0), st).

Definition body (id : PatternId) : re := lit (source (pattern id)).

Lemma pattern_flagless id : global_or_sticky (pattern id) = false.
Proof.
  destruct id; try reflexivity. unfold pattern, UTILITY_PATTERNS.
  change (re_lit "") with (re_lit "") at 1.
  rewrite map_nth. reflexivity.
Qed.

Lemma test_eq id s st : test id s st = (matchb (body id) s, st).
Proof. unfold test. rewrite pattern_flagless. reflexivity. Qed.

Lemma stateless_test id s : stateless (test id s).
Proof. intros st. rewrite !test_eq. reflexivity. Qed.

Lemma stateless_retS {A} (a : A) : stateless (retS a).
Proof. intros st. reflexivity. Qed.

Lemma stateless_bindS {A B} (m : St A) (k : A -> St B) :
  stateless m -> (forall a, stateless (k a)) -> stateless (bindS m k).
Proof.
  intros Hm Hk st. unfold bindS. rewrite (Hm st), (Hm store0). simpl. apply Hk.
Qed.

Lemma stateless_ret {E A} (a : A) : stateless (@ret E A a).
Proof. intros st. reflexivity. Qed.

Lemma stateless_throw {E A} (e : E) : stateless (@throw E A e).
Proof. intros st. reflexivity. Qed.

Lemma stateless_lift {E A} (m : St A) : stateless m -> stateless (@lift E A m).
Proof. intros Hm st. unfold lift. rewrite (Hm st), (Hm store0). reflexivity. Qed.

Lemma stateless_bind {E A B} (m : M E A) (k : A -> M E B) :
  stateless m -> (forall a, stateless (k a)) -> stateless (bind m k).
Proof.
  intros Hm Hk st. unfold bind. rewrite (Hm st), (Hm store0). simpl.
  destruct (fst (m store0)) as [e|a]; [reflexivity|]. apply Hk.
Qed.

Lemma stateless_test_builtin_utilities ids s : stateless (test_builtin_utilities ids s).
Proof.
  induction ids as [|i ids IH]; simpl.
  - apply stateless_retS.
  - apply stateless_bindS; [apply stateless_test|]. intros []; auto using stateless_retS.
Qed.

Lemma stateless_test_custom {E} (RegExp : string -> E + (string -> bool)) ps s :
  stateless (test_custom RegExp ps s).
Proof.
  induction ps as [|src ps IH]; simpl.
  - apply stateless_ret.
  - destruct (RegExp src) as [e|f]; [apply stateless_throw|].
    destruct (f s); auto using stateless_ret.
Qed.

Create HintDb stateless.
#[local] Hint Resolve stateless_test stateless_retS stateless_ret stateless_throw
  stateless_test_builtin_utilities stateless_test_custom : stateless.

Ltac stateless_steps :=
  repeat first
    [ progress (auto with stateless)
    | solve [intros ?st; reflexivity]
    | apply stateless_bind
    | apply stateless_bindS
    | apply stateless_lift
    | match goal with |- stateless ?m =>
        match m with context [match ?x with Some _ => _ | None => _ end] => destruct x end end
    | match goal with |- stateless (if ?x then _ else _) => destruct x end
    | match goal with |- forall _ : bool, _ => intros [] end
    | match goal with |- forall _ : option _, _ => intros [] end
    | match goal with |- forall _, _ => intros ? end ].

Lemma stateless_builtin_utility_st s : stateless (builtin_utility_st s).
Proof. unfold builtin_utility_st. auto with stateless. Qed.
#[local] Hint Resolve stateless_builtin_utility_st : stateless.

Lemma stateless_isUtilityClass_st {E} (RegExp : string -> E + (string -> bool)) s cps :
  stateless (isUtilityClass_st RegExp s cps).
Proof. unfold isUtilityClass_st. stateless_steps. Qed.
#[local] Hint Resolve stateless_isUtilityClass_st : stateless.

Lemma stateless_getClassType_st {E} (RegExp : string -> E + (string -> bool)) s cfg :
  stateless (getClassType_st RegExp s cfg).
Proof.
  unfold getClassType_st, isStateClass_st, isModifier_st, isNestedElement_st,
    isElement_st, isBlock_st.
  stateless_steps.
Qed.
#[local] Hint Resolve stateless_getClassType_st : stateless.

Lemma stateless_validateClassName_st {E} (RegExp : string -> E + (string -> bool)) s cfg :
  stateless (validateClassName_st RegExp s cfg).
Proof. unfold validateClassName_st, isStateClass_st. stateless_steps. Qed.

(** ** The pure views as expressions over the patterns *)

Lemma fst_test id s : fst (test id s store0) = matchb (body id) s.
Proof. rewrite test_eq. reflexivity. Qed.

Lemma isBlock_eq s : isBlock s = matchb (body P_BLOCK) s.
Proof. apply fst_test. Qed.

Lemma isElement_eq s : isElement s = matchb (body P_ELEMENT) s.
Proof. apply fst_test. Qed.

Lemma isNestedElement_eq s : isNestedElement s = matchb (body P_NESTED_ELEMENT) s.
Proof. apply fst_test. Qed.

Lemma isModifier_eq s : isModifier s = matchb (body P_MODIFIER) s.
Proof. apply fst_test. Qed.

Lemma isStateClass_eq s : isStateClass s = matchb (body P_STATE) s.
Proof. apply fst_test. Qed.

Lemma test_builtin_utilities_eq ids s st :
  test_builtin_utilities ids s st = (existsb (fun i => matchb (body (P_UTILITY i)) s) ids, st).
Proof.
  revert st. induction ids as [|i ids IH]; intros st; [reflexivity|].
  cbn [test_builtin_utilities existsb]. unfold bindS. rewrite test_eq.
  destruct (matchb (body (P_UTILITY i)) s); [reflexivity|apply IH].
Qed.

Lemma existsb_ext {A} (f g : A -> bool) l :
  (forall x, f x = g x) -> existsb f l = existsb g l.
Proof. intros H. induction l as [|a l IH]; simpl; [reflexivity|]. rewrite H, IH. reflexivity. Qed.

Lemma existsb_nth_seq {A} (f : A -> bool) d l pre :
  existsb (fun i => f (nth i (app pre l) d)) (seq (length pre) (length l)) = existsb f l.
Proof.
  revert pre. induction l as [|a l IH]; intros pre; [reflexivity|].
  cbn [length seq existsb].
  rewrite app_nth2, Nat.sub_diag by lia. cbn [nth]. f_equal.
  specialize (IH (app pre [a])). rewrite <- app_assoc, length_app in IH.
  rewrite Nat.add_comm in IH. exact IH.
Qed.

Lemma builtin_utility_eq s :
  builtin_utility s = existsb (fun src => matchb (lit src) s) UTILITY_SOURCES.
Proof.
  unfold builtin_utility, builtin_utility_st. rewrite test_builtin_utilities_eq. cbn [fst].
  unfold UTILITY_PATTERNS at 1. rewrite length_map.
  rewrite <- (existsb_nth_seq _ "" UTILITY_SOURCES []).
  apply existsb_ext. intros i. unfold body, pattern, UTILITY_PATTERNS.
  rewrite (map_nth re_lit UTILITY_SOURCES ""). reflexivity.
Qed.

Lemma isUtilityClass_eq {E} (RegExp : string -> E + (string -> bool)) s cps :
  isUtilityClass RegExp s cps =
  if builtin_utility s then inr true else
  match cps with
  | Some ps => fst (test_custom RegExp ps s store0)
  | None => inr false
  end.
Proof.
  unfold isUtilityClass, isUtilityClass_st, bind, lift, builtin_utility.
  rewrite (stateless_builtin_utility_st s store0).
  destruct (fst (builtin_utility_st s store0)); [reflexivity|].
  destruct cps; reflexivity.
Qed.

Lemma isHcncClass_eq {E} (RegExp : string -> E + (string -> bool)) s :
  isHcncClass RegExp s =
  inr (negb (builtin_utility s) &&
       (isBlock s || isElement s || isNestedElement s || isModifier s)).
Proof.
  unfold isHcncClass, isHcncClass_st, bind at 1.
  rewrite (stateless_isUtilityClass_st RegExp s None store0).
  fold (isUtilityClass RegExp s None). rewrite isUtilityClass_eq.
  destruct (builtin_utility s); [reflexivity|]. cbn [negb andb].
  unfold lift, isBlock, isElement, isNestedElement, isModifier,
    isBlock_st, isElement_st, isNestedElement_st, isModifier_st.
  rewrite !fst_test.
  unfold bindS at 1. rewrite test_eq. cbv beta iota zeta.
  destruct (matchb (body P_BLOCK) s); [reflexivity|cbv beta iota zeta].
  unfold bindS at 1. rewrite test_eq. cbv beta iota zeta.
  destruct (matchb (body P_ELEMENT) s); [reflexivity|cbv beta iota zeta].
  unfold bindS at 1. rewrite test_eq. cbv beta iota zeta.
  destruct (matchb (body P_NESTED_ELEMENT) s); [reflexivity|cbv beta iota zeta].
  rewrite test_eq. reflexivity.
Qed.

Lemma getClassType_eq {E} (RegExp : string -> E + (string -> bool)) s cfg :
  getClassType RegExp s cfg =
  if isStateClass s then inr (Some state) else
  if isModifier s then inr (Some modifier) else
  if isNestedElement s then inr (Some nested_element) else
  if isElement s then inr (Some element) else
  match isUtilityClass RegExp s (customUtilities cfg) with
  | inl e => inl e
  | inr true => inr (if strictBem cfg then None else Some utility)
  | inr false => inr (if isBlock s then Some block else None)
  end.
Proof.
  unfold getClassType, getClassType_st, bind at 1, lift at 1.
  rewrite isStateClass_eq. unfold isStateClass_st. rewrite test_eq.
  destruct (matchb (body P_STATE) s); [reflexivity|].
  unfold bind at 1, lift at 1.
  rewrite isModifier_eq. unfold isModifier_st. rewrite test_eq.
  destruct (matchb (body P_MODIFIER) s); [reflexivity|].
  unfold bind at 1, lift at 1.
  rewrite isNestedElement_eq. unfold isNestedElement_st. rewrite test_eq.
  destruct (matchb (body P_NESTED_ELEMENT) s); [reflexivity|].
  unfold bind at 1, lift at 1.
  rewrite isElement_eq. unfold isElement_st. rewrite test_eq.
  destruct (matchb (body P_ELEMENT) s); [reflexivity|].
  unfold bind at 1.
  rewrite (stateless_isUtilityClass_st RegExp s (customUtilities cfg) store0).
  fold (isUtilityClass RegExp s (customUtilities cfg)).
  destruct (isUtilityClass RegExp s (customUtilities cfg)) as [e|[|]]; [reflexivity|destruct (strictBem cfg); reflexivity|].
  unfold lift, bind, isBlock_st. rewrite isBlock_eq, test_eq.
  destruct (matchb (body P_BLOCK) s); reflexivity.
Qed.

Lemma validateClassName_eq {E} (RegExp : string -> E + (string -> bool)) s cfg k :
  getClassType RegExp s cfg = inr (Some k) ->
  validateClassName RegExp s cfg = inr {| valid := true; type := Some k; message := None |}.
Proof.
  intros H. unfold validateClassName, validateClassName_st, bind at 1.
  rewrite (stateless_getClassType_st RegExp s cfg store0).
  fold (getClassType RegExp s cfg). rewrite H. reflexivity.
Qed.

(** ** Words that a pattern cannot match *)

Lemma starts_with_app w s : Js.starts_with w s = true -> exists v, s = w ++ v.
Proof.
  revert s. induction w as [|a w IH]; intros [|b s] H; simpl in H; try discriminate.
  - exists EmptyString. reflexivity.
  - exists (String b s). reflexivity.
  - apply andb_true_iff in H as [H1 H2]. apply Ascii.eqb_eq in H1. subst b.
    destruct (IH s H2) as [v ->]. exists v. reflexivity.
Qed.

Lemma includes_infix s w : Js.includes s w = true -> exists u v, s = u ++ w ++ v.
Proof.
  induction s as [|c s IH]; simpl; intros H; apply orb_true_iff in H as [H|H].
  - destruct (starts_with_app _ _ H) as [v E]. exists EmptyString, v. exact E.
  - discriminate.
  - destruct (starts_with_app _ _ H) as [v E]. exists EmptyString, v. exact E.
  - destruct (IH H) as (u & v & ->). exists (String c u), v. reflexivity.
Qed.

(** A pattern whose automaton never reaches [k] from [0] matches no word
    with [k] consecutive characters satisfying [p]. *)
Lemma matchb_avoids_infix p k r w t :
  get (tr (S k) (count_delta p k) r) 0 k = false ->
  all_chars_of p w = true -> String.length w = k -> Js.includes t w = true ->
  matchb r t = false.
Proof.
  intros Hr Hw Hl Hi. destruct (matchb r t) eqn:E; [|reflexivity]. exfalso.
  apply matchb_correct in E. destruct (includes_infix _ _ Hi) as (u & v & ->).
  apply (avoids_sound (S k) (count_delta p k) (count_delta_lt p k) 0 k r _ ltac:(lia) Hr E).
  apply count_run_infix; auto.
Qed.

Lemma matchb_disjoint n delta (Hlt : forall q c, q < n -> delta q c < n) q0 r1 r2 s :
  q0 < n -> disjoint_from n delta q0 r1 r2 = true ->
  matchb r1 s = true -> matchb r2 s = false.
Proof.
  intros Hq Hd H1. destruct (matchb r2 s) eqn:E2; [|reflexivity]. exfalso.
  apply matchb_correct in H1, E2.
  exact (disjoint_from_sound n delta Hlt q0 r1 r2 s Hq Hd H1 E2).
Qed.

Definition underscore (c : ascii) : bool := Ascii.eqb c "_".

Lemma upper_separates :
  forallb (fun id => disjoint_from 2 (count_delta is_upper 1) 0 (body P_STATE) (body id))
    [P_BLOCK; P_ELEMENT; P_NESTED_ELEMENT; P_MODIFIER] = true.
Proof. vm_compute. reflexivity. Qed.

Lemma double_hyphen_separates :
  disjoint_from 4 bem_dd_delta 0 (body P_MODIFIER) (body P_BLOCK) &&
  forallb (fun src => disjoint_from 4 bem_dd_delta 0 (body P_MODIFIER) (lit src))
    UTILITY_SOURCES = true.
Proof. vm_compute. reflexivity. Qed.

Lemma underscore_separates :
  disjoint_from 2 (count_delta underscore 1) 0 (body P_BLOCK) (body P_ELEMENT) &&
  disjoint_from 2 (count_delta underscore 1) 0 (body P_BLOCK) (body P_NESTED_ELEMENT) = true.
Proof. vm_compute. reflexivity. Qed.

Lemma triple_underscore_unreachable :
  forallb (fun id => negb (get (tr 4 (count_delta underscore 3) (body id)) 0 3))
    [P_BLOCK; P_ELEMENT; P_NESTED_ELEMENT; P_MODIFIER; P_STATE] = true.
Proof. vm_compute. reflexivity. Qed.


Lemma state_not_bem s :
  isStateClass s = true ->
  isBlock s = false /\ isElement s = false /\ isNestedElement s = false /\ isModifier s = false.
Proof.
  rewrite isStateClass_eq, isBlock_eq, isElement_eq, isNestedElement_eq, isModifier_eq.
  intros H. pose proof upper_separates as D. rewrite forallb_forall in D.
  pose proof (D P_BLOCK ltac:(simpl; tauto)) as D1.
  pose proof (D P_ELEMENT ltac:(simpl; tauto)) as D2.
  pose proof (D P_NESTED_ELEMENT ltac:(simpl; tauto)) as D3.
  pose proof (D P_MODIFIER ltac:(simpl; tauto)) as D4.
  pose proof (fun r2 => matchb_disjoint 2 _ (count_delta_lt is_upper 1) 0 (body P_STATE) r2 s ltac:(lia)) as X.
  repeat split; [exact (X _ D1 H) | exact (X _ D2 H) | exact (X _ D3 H) | exact (X _ D4 H)].
Qed.

Lemma modifier_not_utility s : isModifier s = true -> builtin_utility s = false.
Proof.
  rewrite isModifier_eq, builtin_utility_eq. intros H.
  pose proof double_hyphen_separates as D. apply andb_true_iff in D as [_ D].
  rewrite forallb_forall in D.
  destruct (existsb _ _) eqn:X; [|reflexivity].
  apply existsb_exists in X as (src & Hin & Hm).
  rewrite (matchb_disjoint 4 bem_dd_delta bem_dd_delta_lt 0 _ _ s ltac:(lia) (D src Hin) H)
    in Hm.
  discriminate Hm.
Qed.

Lemma block_not_others s :
  isBlock s = true ->
  isStateClass s = false /\ isModifier s = false /\
  isNestedElement s = false /\ isElement s = false.
Proof.
  intros H. split.
  - destruct (isStateClass s) eqn:E; [|reflexivity].
    destruct (state_not_bem s E) as [B _]. rewrite B in H. discriminate H.
  - rewrite isBlock_eq in H. rewrite isModifier_eq, isNestedElement_eq, isElement_eq.
    pose proof double_hyphen_separates as D. apply andb_true_iff in D as [D _].
    pose proof underscore_separates as U. apply andb_true_iff in U as [U1 U2].
    split; [|split].
    + destruct (matchb (body P_MODIFIER) s) eqn:M; [|reflexivity].
      rewrite (matchb_disjoint 4 bem_dd_delta bem_dd_delta_lt 0 _ _ s ltac:(lia) D M) in H.
      discriminate H.
    + exact (matchb_disjoint 2 _ (count_delta_lt underscore 1) 0 _ _ s ltac:(lia) U2 H).
    + exact (matchb_disjoint 2 _ (count_delta_lt underscore 1) 0 _ _ s ltac:(lia) U1 H).
Qed.

Lemma triple_underscore_no_grammar s :
  Js.includes s "___" = true ->
  isBlock s = false /\ isElement s = false /\ isNestedElement s = false /\
  isModifier s = false /\ isStateClass s = false.
Proof.
  intros Hi.
  rewrite isBlock_eq, isElement_eq, isNestedElement_eq, isModifier_eq, isStateClass_eq.
  pose proof triple_underscore_unreachable as D. rewrite forallb_forall in D.
  pose proof (D P_BLOCK ltac:(simpl; tauto)) as D1.
  pose proof (D P_ELEMENT ltac:(simpl; tauto)) as D2.
  pose proof (D P_NESTED_ELEMENT ltac:(simpl; tauto)) as D3.
  pose proof (D P_MODIFIER ltac:(simpl; tauto)) as D4.
  pose proof (D P_STATE ltac:(simpl; tauto)) as D5.
  apply negb_true_iff in D1, D2, D3, D4, D5.
  pose proof (fun r Hr => matchb_avoids_infix underscore 3 r "___" s Hr eq_refl eq_refl Hi) as X.
  repeat split; [exact (X _ D1) | exact (X _ D2) | exact (X _ D3) | exact (X _ D4) | exact (X _ D5)].
Qed.

(** ** Occurrences of a word *)

Lemma starts_with_self w v : Js.starts_with w (w ++ v) = true.
Proof. induction w as [|a w IH]; simpl; [reflexivity|]. rewrite Ascii.eqb_refl, IH. reflexivity. Qed.

Lemma starts_includes s w : Js.starts_with w s = true -> Js.includes s w = true.
Proof. destruct s; simpl; intros H; rewrite H; reflexivity. Qed.

Lemma includes_app u w v : Js.includes (u ++ w ++ v) w = true.
Proof.
  induction u as [|a u IH]; simpl.
  - apply starts_includes, starts_with_self.
  - rewrite IH, orb_true_r. reflexivity.
Qed.

(** ** Selector lines *)

Definition rbrace (c : ascii) : bool := Ascii.eqb c "}".

Lemma selector_no_rbrace :
  negb (get (tr 2 (count_delta rbrace 1) (lit (source SELECTOR_GROUP))) 0 1) &&
  negb (get (tr 2 (count_delta rbrace 1) (lit (source SELECTOR_TAIL))) 0 1) = true.
Proof. vm_compute. reflexivity. Qed.

Lemma splits_app a b s : In (a, b) (splits s) -> a ++ b = s.
Proof.
  revert a b. induction s as [|c s IH]; simpl; intros a b H.
  - destruct H as [H|[]]. injection H as <- <-. reflexivity.
  - destruct H as [H|H].
    + injection H as <- <-. reflexivity.
    + apply in_map_iff in H as ([a' b'] & E & Hin). injection E as <- <-.
      simpl. f_equal. apply IH. exact Hin.
Qed.

(** The selector regex accepts no line with a closing brace. *)
Lemma selector_match_no_rbrace t g : selector_match t = Some g -> Js.includes t "}" = false.
Proof.
  unfold selector_match. destruct (find _ _) as [[g' rest]|] eqn:F; [|discriminate]. intros _.
  apply find_some in F as [Hin Hf]. apply in_rev, splits_app in Hin.
  cbv beta iota in Hf. apply andb_true_iff in Hf as [Hg Hr].
  apply matchb_correct in Hg, Hr.
  destruct (Js.includes t "}") eqn:I; [|reflexivity]. exfalso.
  pose proof selector_no_rbrace as D. apply andb_true_iff in D as [D1 D2].
  apply negb_true_iff in D1, D2.
  destruct (includes_infix _ _ I) as (u & v & E).
  assert (R : run (count_delta rbrace 1) 0 t = 1)
    by (rewrite E; apply count_run_infix; reflexivity).
  rewrite <- Hin, run_app in R.
  pose proof (avoids_sound 2 _ (count_delta_lt rbrace 1) 0 1 _ g' ltac:(lia) D1 Hg) as A1.
  pose proof (count_run_lt rbrace 1 0 g' ltac:(lia)) as L1.
  assert (Z : run (count_delta rbrace 1) 0 g' = 0) by lia.
  rewrite Z in R.
  exact (avoids_sound 2 _ (count_delta_lt rbrace 1) 0 1 _ rest ltac:(lia) D2 Hr R).
Qed.

(** ** Words of the state shape *)

Definition is_alnum (c : ascii) : bool := is_lower c || is_upper c || is_digit c.

Definition chr (a : ascii) : re := Chr (fun c => Ascii.eqb c a).

(** [(is|has)[A-Z][a-zA-Z0-9]*], written out. *)
Definition STATE_SHAPE : re :=
  Seq (Alt (Seq (chr "i") (Seq (chr "s") Eps))
           (Seq (chr "h") (Seq (chr "a") (Seq (chr "s") Eps))))
      (Seq (Chr is_upper) (Seq (Star (Chr is_alnum)) Eps)).

Lemma STATE_SHAPE_body : re_eqb STATE_SHAPE (body P_STATE) = true.
Proof. vm_compute. reflexivity. Qed.

Lemma append_empty_r s : s ++ EmptyString = s.
Proof. induction s as [|c s IH]; simpl; congruence. Qed.

Lemma m_seq' r1 r2 s1 s2 s :
  matches r1 s1 -> matches r2 s2 -> s = s1 ++ s2 -> matches (Seq r1 r2) s.
Proof. intros H1 H2 ->. constructor; auto. Qed.

Lemma matches_star_chr p w : all_chars_of p w = true -> matches (Star (Chr p)) w.
Proof.
  induction w as [|c w IH]; simpl; intros H; [constructor|].
  apply andb_true_iff in H as [H1 H2].
  apply (m_star _ (String c EmptyString) w); [constructor; exact H1 | auto].
Qed.

Lemma state_shape_isStateClass pre c rest :
  (pre = "is" \/ pre = "has") -> is_upper c = true -> all_chars_of is_alnum rest = true ->
  isStateClass (pre ++ String c rest) = true.
Proof.
  intros Hp Hc Hr. rewrite isStateClass_eq. apply matchb_correct.
  apply (re_eqb_matches STATE_SHAPE); [|exact STATE_SHAPE_body].
  apply (m_seq' _ _ pre (String c rest)); [| |reflexivity].
  - destruct Hp as [-> | ->]; [apply m_altl | apply m_altr].
    + apply (m_seq' _ _ "i" "s"); [apply m_chr; reflexivity| |reflexivity].
      apply (m_seq' _ _ "s" ""); [apply m_chr; reflexivity|constructor|reflexivity].
    + apply (m_seq' _ _ "h" "as"); [apply m_chr; reflexivity| |reflexivity].
      apply (m_seq' _ _ "a" "s"); [apply m_chr; reflexivity| |reflexivity].
      apply (m_seq' _ _ "s" ""); [apply m_chr; reflexivity|constructor|reflexivity].
  - apply (m_seq' _ _ (String c EmptyString) rest); [apply m_chr; exact Hc| |reflexivity].
    apply (m_seq' _ _ rest EmptyString); [apply matches_star_chr; exact Hr|constructor|].
    symmetry. apply append_empty_r.
Qed.

(** ** Caller-supplied sources *)

Lemma test_custom_inl {E} (RegExp : string -> E + (string -> bool)) ps s e :
  fst (test_custom RegExp ps s store0) = inl e -> exists src, In src ps /\ RegExp src = inl e.
Proof.
  induction ps as [|src ps IH]; cbn [test_custom]; intros H; [discriminate H|].
  destruct (RegExp src) as [e'|f] eqn:R.
  - injection H as <-. exists src. split; [left; reflexivity | exact R].
  - destruct (f s); [discriminate H|]. destruct (IH H) as (src' & Hin & Hr).
    exists src'. split; [right; exact Hin | exact Hr].
Qed.

Lemma test_custom_true {E} (RegExp : string -> E + (string -> bool)) ps s :
  fst (test_custom RegExp ps s store0) = inr true ->
  exists src f, In src ps /\ RegExp src = inr f /\ f s = true.
Proof.
  induction ps as [|src ps IH]; cbn [test_custom]; intros H; [discriminate H|].
  destruct (RegExp src) as [e'|f] eqn:R; [discriminate H|].
  destruct (f s) eqn:F.
  - exists src, f. split; [left; reflexivity | auto].
  - destruct (IH H) as (src' & f' & Hin & Hr & Hf).
    exists src', f'. split; [right; exact Hin | auto].
Qed.

Lemma test_custom_head_inl {E} (RegExp : string -> E + (string -> bool)) src rest s e :
  RegExp src = inl e -> fst (test_custom RegExp (src :: rest) s store0) = inl e.
Proof. intros R. cbn [test_custom]. rewrite R. reflexivity. Qed.

(** The loop over the caller-supplied sources raises an error exactly when
    some source fails to compile and every source before it compiles and
    does not match. *)
Lemma test_custom_inl_iff {E} (RegExp : string -> E + (string -> bool)) ps s e :
  fst (test_custom RegExp ps s store0) = inl e <->
  exists pre src post, ps = app pre (src :: post) /\
    Forall (fun p => exists f, RegExp p = inr f /\ f s = false) pre /\ RegExp src = inl e.
Proof.
  induction ps as [|src ps IH]; cbn [test_custom].
  - split; [intros H; discriminate H|].
    intros ([|p pre] & src & post & Hp & _); discriminate Hp.
  - destruct (RegExp src) as [e'|f] eqn:R.
    + split.
      * intros H. injection H as <-. exists [], src, ps.
        split; [reflexivity | split; [constructor | exact R]].
      * intros ([|p pre] & src' & post & Hp & F & R').
        -- injection Hp as <- <-. rewrite R in R'. injection R' as <-. reflexivity.
        -- injection Hp as <- _. inversion F as [|? ? (f & Rf & _) _]; subst.
           rewrite R in Rf. discriminate Rf.
    + destruct (f s) eqn:Fs.
      * split; [intros H; discriminate H|].
        intros ([|p pre] & src' & post & Hp & F & R').
        -- injection Hp as <- _. rewrite R in R'. discriminate R'.
        -- injection Hp as <- _. inversion F as [|? ? (f' & Rf & Ff) _]; subst.
           rewrite R in Rf. injection Rf as <-. rewrite Fs in Ff. discriminate Ff.
      * rewrite IH. split.
        -- intros (pre & src' & post & -> & F & R').
           exists (src :: pre), src', post. split; [reflexivity|].
           split; [constructor; [exists f; split; assumption | exact F] | exact R'].
        -- intros ([|p pre] & src' & post & Hp & F & R').
           ++ injection Hp as <- _. rewrite R in R'. discriminate R'.
           ++ injection Hp as <- ->. inversion F as [|? ? _ F']; subst.
              exists pre, src', post. split; [reflexivity | split; assumption].
Qed.

(** The loop stops at the first source that matches, whatever follows it. *)
Lemma test_custom_first_match {E} (RegExp : string -> E + (string -> bool)) pre src post s f :
  Forall (fun p => exists f, RegExp p = inr f /\ f s = false) pre ->
  RegExp src = inr f -> f s = true ->
  fst (test_custom RegExp (app pre (src :: post)) s store0) = inr true.
Proof.
  intros F R Fs. induction F as [|p pre (f' & R' & Fs') F IH]; cbn [app test_custom].
  - rewrite R, Fs. reflexivity.
  - rewrite R', Fs'. exact IH.
Qed.

End Hcnc.

(** * The rest of the package: class strings, selectors, the CLI *)
Module Api.

Import Regex Hcnc.
Open Scope string_scope.

Local Notation "x <- m ;; k" := (bind m (fun x => k))
  (at level 61, m at next level, right associativity).

(** ** [parseClassString] *)

(** [s.split(/\s+/)]: the pieces between the maximal runs of white space (a
    run at either end leaves an empty piece there).  [cur] is the piece read
    so far, [prev_ws] tells whether the previous character was white space. *)
Fixpoint split_ws_go (s cur : string) (prev_ws : bool) : list string :=
  match s with
  | EmptyString => [cur]
  | String c s' =>
      if is_space c then
        if prev_ws then split_ws_go s' cur true
        else cur :: split_ws_go s' EmptyString true
      else split_ws_go s' (cur ++ String c EmptyString) false
  end.

Definition split_ws (s : string) : list string := split_ws_go s EmptyString false.

(** [classString.split(/\s+/).filter(Boolean)] *)
Definition parseClassString (classString : string) : list string :=
  filter (fun t => negb (String.eqb t EmptyString)) (split_ws classString).

(** A string without white space. *)
Definition no_space (s : string) : bool := all_chars_of (fun c => negb (is_space c)) s.

(** ** Global regular expressions

    A pattern [P(G)S] with one capture group is cut into the three parts;
    [heads r s] lists the splits of [s] whose head matches [r], longest head
    first. *)
Definition heads (r : re) (s : string) : list (string * string) :=
  filter (fun '(a, _) => matchb r a) (rev (splits s)).

(** A match of [P(G)S] at the start of [s]: the matched text, the text of the
    group and the rest of [s].  The candidates are tried longest [P] first,
    then longest [G], then longest [S]: for the patterns below this is the
    order of the engine's backtracking (the groups are greedy, and the
    alternative [className|class] lists the longer word first). *)
Definition match_here (pre grp suf : re) (s : string) : option (string * string * string) :=
  hd_error
    (flat_map (fun '(a, s1) =>
       flat_map (fun '(g, s2) =>
         map (fun '(b, rest) => (a ++ g ++ b, g, rest)) (heads suf s2))
       (heads grp s1))
     (heads pre s)).

(** The matches of a global regex over [s], as [matchAll] (and [match] with
    the [g] flag) list them: the search resumes at the end of a match, one
    code unit further after an empty one.  Each call consumes a code unit or
    a non-empty match, so the fuel [String.length s + 1] of [matchAll] is
    never exhausted. *)
Fixpoint match_all (pre grp suf : re) (fuel : nat) (s : string) : list (string * string) :=
  match fuel with
  | O => []
  | S f =>
      let next := match s with
                  | EmptyString => []
                  | String _ s' => match_all pre grp suf f s'
                  end in
      match match_here pre grp suf s with
      | Some (m, g, rest) =>
          (m, g) :: match m with
                    | EmptyString => next
                    | String _ _ => match_all pre grp suf f rest
                    end
      | None => next
      end
  end.

Definition matchAll (pre grp suf : re) (s : string) : list (string * string) :=
  match_all pre grp suf (S (String.length s)) s.

(** [s.replace(/R/g, rep)] for a replacement without [$] patterns. *)
Fixpoint replace_all (r : re) (rep : string) (fuel : nat) (s : string) : string :=
  match fuel with
  | O => s
  | S f =>
      let next := match s with
                  | EmptyString => EmptyString
                  | String c s' => String c (replace_all r rep f s')
                  end in
      match heads r s with
      | (String _ _, rest) :: _ => rep ++ replace_all r rep f rest
      | (EmptyString, _) :: _ => rep ++ next
      | [] => next
      end
  end.

(** The empty pattern. *)
Definition NOTHING : re := lit "^$".

(** ** [extractClassSelectors] *)

(** The regex [/\.(N)/g] of [extractClassSelectors], with [N] the class name
    [[a-zA-Z_][a-zA-Z0-9_-]*], cut at its capture group. *)
Definition CLASS_DOT : re := lit "^\.$".
Definition CLASS_NAME : re := lit "^[a-zA-Z_][a-zA-Z0-9_-]*$".

(** [selector.match(/\.(N)/g)], [null] when nothing matches, then
    [matches.map((m) => m.slice(1))]. *)
Definition extractClassSelectors (selector : string) : list string :=
  match matchAll CLASS_DOT CLASS_NAME NOTHING selector with
  | [] => []
  | ms => map (fun '(m, _) => Js.slice_from m 1) ms
  end.

(** ** The package entry ([index.ts]) *)

Definition defaultConfig : HcncConfig :=
  {| customUtilities := Some []; allowUnknown := false; strictBem := false |}.

(** ** The CLI's [extractClassesFromFile] *)

(** [/(?:className|class)=[Q]([^Q]+)[Q]/g], where [Q] stands for the two
    quote characters. *)
Definition CLASS_ATTR : re := lit ("^(?:className|class)=[" ++ Js.dq ++ "']$").
Definition QUOTED : re := lit ("^[^" ++ Js.dq ++ "']+$").
Definition QUOTE : re := lit ("^[" ++ Js.dq ++ "']$").
(** [/(?:className|class)=\{`([^`]+)`\}/g] *)
Definition TEMPLATE_ATTR : re := lit "^(?:className|class)=\{`$".
Definition TEMPLATE_BODY : re := lit "^[^`]+$".
Definition TEMPLATE_END : re := lit "^`\}$".
(** [/\$\{[^}]+\}/g] *)
Definition TEMPLATE_EXPR : re := lit "^\$\{[^}]+\}$".
(** [/class=[Q]([^Q]+)[Q]/g] *)
Definition HTML_CLASS_ATTR : re := lit ("^class=[" ++ Js.dq ++ "']$").

(** One step of [new Set(classes)]: a class already seen is dropped. *)
Definition dedup_step (seen : list string) (x : string) : list string :=
  if existsb (String.eqb x) seen then seen else app seen [x].

(** [[...new Set(classes)]]: the first occurrence of each class, in order. *)
Definition dedup (classes : list string) : list string := fold_left dedup_step classes [].

Definition extractClassesFromFile (content ext : string) : list string :=
  dedup
    (app (if existsb (String.eqb ext) [".jsx"; ".tsx"; ".js"; ".ts"] then
            app (flat_map (fun '(_, g) => parseClassString g)
                          (matchAll CLASS_ATTR QUOTED QUOTE content))
                (flat_map (fun '(_, g) =>
                             parseClassString (replace_all TEMPLATE_EXPR " " (S (String.length g)) g))
                          (matchAll TEMPLATE_ATTR TEMPLATE_BODY TEMPLATE_END content))
          else [])
    (app (if existsb (String.eqb ext) [".css"; ".scss"; ".sass"] then
            map snd (matchAll CLASS_DOT CLASS_NAME NOTHING content)
          else [])
         (if String.eqb ext ".html" then
            flat_map (fun '(_, g) => parseClassString g)
                     (matchAll HTML_CLASS_ATTR QUOTED QUOTE content)
          else []))).

(** ** Calls over a list of classes *)

Section Calls.

Context {SyntaxError : Type} (RegExp : string -> SyntaxError + (string -> bool)).

(** [classes.map((cls) => validateClassName(cls, config))] *)
Fixpoint validate_all (classes : list string) (config : HcncConfig)
  : M SyntaxError (list ValidationResult) :=
  match classes with
  | [] => ret []
  | cls :: rest =>
      r <- validateClassName_st RegExp cls config ;;
      rs <- validate_all rest config ;;
      ret (r :: rs)
  end.

Definition validateClassString_st (classString : string) (config : HcncConfig)
  : M SyntaxError (list ValidationResult) :=
  validate_all (parseClassString classString) config.

(** The loop of [getInvalidClasses]; [invalid] is the array built so far,
    [{ className, result }] a pair. *)
Fixpoint collect_invalid (classes : list string) (config : HcncConfig)
    (invalid : list (string * ValidationResult))
  : M SyntaxError (list (string * ValidationResult)) :=
  match classes with
  | [] => ret invalid
  | className :: rest =>
      result <- validateClassName_st RegExp className config ;;
      collect_invalid rest config
        (if valid result then invalid else app invalid [(className, result)])
  end.

Definition getInvalidClasses_st (classString : string) (config : HcncConfig)
  : M SyntaxError (list (string * ValidationResult)) :=
  collect_invalid (parseClassString classString) config [].

Definition validateCssSelector_st (selector : string) (config : HcncConfig)
  : M SyntaxError (list ValidationResult) :=
  validate_all (extractClassSelectors selector) config.

(** The loop of the CLI's [validateCommand], which calls
    [validateClassName(cls)] without a configuration; the result is
    [hasErrors].  The console output is not modelled. *)
Fixpoint validate_command_loop (classes : list string) (hasErrors : bool)
  : M SyntaxError bool :=
  match classes with
  | [] => ret hasErrors
  | cls :: rest =>
      result <- validateClassName_st RegExp cls no_config ;;
      validate_command_loop rest (if valid result then hasErrors else true)
  end.

(** [validateCommand(classString)]: whether it ends in [process.exit(1)]. *)
Definition validateCommand_st (classString : string) : M SyntaxError bool :=
  validate_command_loop (parseClassString classString) false.

(** The [validate] case of the CLI's [switch], with [rest = args.slice(1)]:
    whether the process exits with status 1 ([!args[1]] holds for a missing
    or an empty argument). *)
Definition validate_case_st (rest : list string) : M SyntaxError bool :=
  match rest with
  | [] => ret true
  | a :: _ => if String.eqb a EmptyString then ret true
              else validateCommand_st (Js.join " " rest)
  end.

End Calls.

Definition validateClassString {E} RegExp (classString : string) (config : HcncConfig)
  : E + list ValidationResult :=
  fst (validateClassString_st RegExp classString config store0).

Definition getInvalidClasses {E} RegExp (classString : string) (config : HcncConfig)
  : E + list (string * ValidationResult) :=
  fst (getInvalidClasses_st RegExp classString config store0).

Definition validateCssSelector {E} RegExp (selector : string) (config : HcncConfig)
  : E + list ValidationResult :=
  fst (validateCssSelector_st RegExp selector config store0).

Definition validate_case {E} RegExp (rest : list string) : E + bool :=
  fst (validate_case_st RegExp rest store0).

(** Every caller-supplied source compiles. *)
Definition sources_compile {E} (RegExp : string -> E + (string -> bool)) (cfg : HcncConfig)
  : bool :=
  match customUtilities cfg with
  | None => true
  | Some ps => forallb (fun src => match RegExp src with inl _ => false | inr _ => true end) ps
  end.

(** The class-name characters of the selector pattern. *)
Definition name_start (c : ascii) : bool := is_upper c || is_lower c || Ascii.eqb c "_".
Definition name_char (c : ascii) : bool :=
  is_upper c || is_lower c || is_digit c || Ascii.eqb c "_" || Ascii.eqb c "-".

Definition NAME_SHAPE : re := Seq (Chr name_start) (Seq (Star (Chr name_char)) Eps).

(** ** Strings *)

Lemma str_app_assoc a b c : a ++ (b ++ c) = (a ++ b) ++ c.
Proof. induction a as [|x a IH]; simpl; congruence. Qed.

Lemma all_chars_of_app p a b :
  all_chars_of p (a ++ b) = all_chars_of p a && all_chars_of p b.
Proof. induction a as [|c a IH]; simpl; [reflexivity|]. rewrite IH, andb_assoc. reflexivity. Qed.

Lemma all_chars_of_impl (p q : ascii -> bool) s :
  (forall c, p c = true -> q c = true) -> all_chars_of p s = true -> all_chars_of q s = true.
Proof.
  intros H. induction s as [|c s IH]; simpl; [reflexivity|].
  intros E. apply andb_true_iff in E as [E1 E2]. rewrite (H c E1), (IH E2). reflexivity.
Qed.

Lemma substring_0_all s : substring 0 (String.length s) s = s.
Proof. induction s as [|c s IH]; simpl; [reflexivity|]. rewrite IH. reflexivity. Qed.

Lemma slice_from_1 c x : Js.slice_from (String c x) 1 = x.
Proof.
  unfold Js.slice_from. cbn [String.length substring].
  replace (S (String.length x) - 1) with (String.length x) by lia.
  apply substring_0_all.
Qed.

(** ** [parseClassString] *)

Lemma split_ws_go_no_space s cur b :
  no_space cur = true -> Forall (fun t => no_space t = true) (split_ws_go s cur b).
Proof.
  revert cur b. induction s as [|c s IH]; intros cur b H; cbn [split_ws_go].
  - constructor; [exact H | constructor].
  - destruct (is_space c) eqn:Sp.
    + destruct b; [apply IH; exact H|]. constructor; [exact H|]. apply IH. reflexivity.
    + apply IH. unfold no_space in *. rewrite all_chars_of_app, H. simpl. rewrite Sp. reflexivity.
Qed.

Lemma parseClassString_tokens s :
  Forall (fun t => t <> EmptyString /\ no_space t = true) (parseClassString s).
Proof.
  apply Forall_forall. intros t H.
  unfold parseClassString in H. apply filter_In in H as [Hin Hne]. split.
  - intros ->. discriminate Hne.
  - pose proof (split_ws_go_no_space s EmptyString false eq_refl) as F.
    rewrite Forall_forall in F. exact (F t Hin).
Qed.

Lemma split_ws_go_word w rest cur b :
  no_space w = true -> w <> EmptyString ->
  split_ws_go (w ++ rest) cur b = split_ws_go rest (cur ++ w) false.
Proof.
  revert cur b. induction w as [|c w IH]; intros cur b H Hne; [congruence|].
  unfold no_space in H. cbn [all_chars_of] in H. apply andb_true_iff in H as [Hc H].
  apply negb_true_iff in Hc. cbn [String.append split_ws_go]. rewrite Hc.
  destruct w as [|c' w'].
  - reflexivity.
  - rewrite IH by (exact H || discriminate). rewrite <- str_app_assoc. reflexivity.
Qed.

Lemma split_ws_go_space x cur : split_ws_go (String " " x) cur false = cur :: split_ws_go x "" true.
Proof. reflexivity. Qed.

Lemma split_ws_join ts b :
  ts <> [] -> Forall (fun t => t <> EmptyString /\ no_space t = true) ts ->
  split_ws_go (Js.join " " ts) EmptyString b = ts.
Proof.
  revert b. induction ts as [|t ts IH]; intros b Hne F; [congruence|].
  inversion F as [|? ? [Ht Hs] F']; subst.
  destruct ts as [|t2 ts'].
  - cbn [Js.join]. rewrite <- (append_empty_r t) at 1.
    rewrite split_ws_go_word by assumption. reflexivity.
  - change (Js.join " " (t :: t2 :: ts')) with (t ++ " " ++ Js.join " " (t2 :: ts')).
    rewrite split_ws_go_word by assumption.
    change (" " ++ Js.join " " (t2 :: ts')) with (String " " (Js.join " " (t2 :: ts'))).
    rewrite split_ws_go_space. f_equal. apply IH; [discriminate | exact F'].
Qed.

Lemma filter_nonempty ts :
  Forall (fun t => t <> EmptyString /\ no_space t = true) ts ->
  filter (fun t => negb (String.eqb t EmptyString)) ts = ts.
Proof.
  induction 1 as [|t ts [Ht _] _ IH]; [reflexivity|]. cbn [filter].
  destruct (String.eqb t EmptyString) eqn:E.
  - apply String.eqb_eq in E. contradiction.
  - cbn [negb]. rewrite IH. reflexivity.
Qed.

Lemma parseClassString_join ts :
  Forall (fun t => t <> EmptyString /\ no_space t = true) ts ->
  parseClassString (Js.join " " ts) = ts.
Proof.
  intros F. destruct ts as [|t ts]; [reflexivity|].
  unfold parseClassString, split_ws. rewrite split_ws_join by (discriminate || exact F).
  apply filter_nonempty, F.
Qed.

(** ** Global matches *)

Lemma hd_error_in {A} (l : list A) x : hd_error l = Some x -> In x l.
Proof. destruct l as [|y l]; cbn; intros H; [discriminate H|]. injection H as ->. left; reflexivity. Qed.

Lemma heads_in r s a b : In (a, b) (heads r s) -> matchb r a = true /\ a ++ b = s.
Proof.
  unfold heads. intros H. apply filter_In in H as [H1 H2]. split; [exact H2|].
  apply in_rev, splits_app in H1. exact H1.
Qed.

Lemma match_here_sound pre grp suf s m g rest :
  match_here pre grp suf s = Some (m, g, rest) ->
  exists a b, m = a ++ g ++ b /\ matchb pre a = true /\ matchb grp g = true /\
              matchb suf b = true /\ m ++ rest = s.
Proof.
  unfold match_here. intros H. apply hd_error_in in H.
  apply in_flat_map in H as ([a s1] & Ha & H).
  apply in_flat_map in H as ([g' s2] & Hg & H).
  apply in_map_iff in H as ([b rest'] & E & Hb).
  injection E as <- <- <-.
  apply heads_in in Ha as [Ma <-]. apply heads_in in Hg as [Mg <-].
  apply heads_in in Hb as [Mb <-].
  exists a, b. repeat split; try assumption.
  rewrite <- !str_app_assoc. reflexivity.
Qed.

Lemma in_match_all pre grp suf f s m g :
  In (m, g) (match_all pre grp suf f s) ->
  exists a b, m = a ++ g ++ b /\ matchb pre a = true /\ matchb grp g = true /\
              matchb suf b = true.
Proof.
  revert s. induction f as [|f IH]; intros s H; [destruct H|].
  cbn [match_all] in H.
  assert (Next : In (m, g) (match s with
                            | EmptyString => []
                            | String _ s' => match_all pre grp suf f s'
                            end) ->
                 exists a b, m = a ++ g ++ b /\ matchb pre a = true /\
                             matchb grp g = true /\ matchb suf b = true)
    by (destruct s as [|c s']; [intros []|apply IH]).
  destruct (match_here pre grp suf s) as [[[m' g'] rest]|] eqn:E.
  - destruct H as [H|H].
    + injection H as <- <-. apply match_here_sound in E as (a & b & ? & ? & ? & ? & _).
      exists a, b. repeat split; assumption.
    + destruct m' as [|c m'']; [apply Next, H | apply (IH rest), H].
  - apply Next, H.
Qed.

(** ** The selector pattern *)

Lemma chr_inv p s : matches (Chr p) s -> exists c, s = String c EmptyString /\ p c = true.
Proof. inversion 1; eauto. Qed.

Lemma eps_inv s : matches Eps s -> s = EmptyString.
Proof. inversion 1; reflexivity. Qed.

Lemma star_chr_all p w : matches (Star (Chr p)) w -> all_chars_of p w = true.
Proof.
  intros H. remember (Star (Chr p)) as r eqn:Er. revert Er.
  induction H as [| | | | | r | r s1 s2 H1 _ H2 IH2]; intros Er; try discriminate Er.
  - reflexivity.
  - injection Er as ->. apply chr_inv in H1 as (c & -> & Hc). cbn [String.append all_chars_of].
    rewrite Hc, IH2 by reflexivity. reflexivity.
Qed.

Lemma CLASS_NAME_shape : re_eqb CLASS_NAME NAME_SHAPE = true.
Proof. vm_compute. reflexivity. Qed.

Lemma CLASS_DOT_shape : re_eqb CLASS_DOT (Seq (chr ".") Eps) = true.
Proof. vm_compute. reflexivity. Qed.

Lemma NOTHING_shape : re_eqb NOTHING Eps = true.
Proof. vm_compute. reflexivity. Qed.

Lemma class_name_inv g :
  matchb CLASS_NAME g = true ->
  exists c rest, g = String c rest /\ name_start c = true /\ all_chars_of name_char rest = true.
Proof.
  intros H. apply matchb_correct in H.
  pose proof (re_eqb_matches _ _ H NAME_SHAPE CLASS_NAME_shape) as H'.
  apply seq_inv in H' as (s1 & s2 & <- & M1 & M2).
  apply chr_inv in M1 as (c & -> & Hc).
  apply seq_inv in M2 as (s3 & s4 & <- & M3 & M4).
  apply eps_inv in M4 as ->. apply star_chr_all in M3.
  exists c, s3. rewrite append_empty_r. auto.
Qed.

Lemma class_dot_inv a : matchb CLASS_DOT a = true -> a = ".".
Proof.
  intros H. apply matchb_correct in H.
  pose proof (re_eqb_matches _ _ H _ CLASS_DOT_shape) as H'.
  apply seq_inv in H' as (s1 & s2 & <- & M1 & M2).
  apply chr_inv in M1 as (c & -> & Hc). apply eps_inv in M2 as ->.
  apply Ascii.eqb_eq in Hc. subst c. reflexivity.
Qed.

Lemma nothing_inv b : matchb NOTHING b = true -> b = EmptyString.
Proof.
  intros H. apply matchb_correct in H.
  exact (eps_inv _ (re_eqb_matches _ _ H _ NOTHING_shape)).
Qed.

Lemma extractClassSelectors_eq s :
  extractClassSelectors s = map snd (matchAll CLASS_DOT CLASS_NAME NOTHING s).
Proof.
  assert (H : map (fun '(m, _) => Js.slice_from m 1) (matchAll CLASS_DOT CLASS_NAME NOTHING s) =
              map snd (matchAll CLASS_DOT CLASS_NAME NOTHING s)).
  { apply map_ext_in. intros [m g] Hin. unfold matchAll in Hin.
    apply in_match_all in Hin as (a & b & -> & Ha & _ & Hb).
    apply class_dot_inv in Ha as ->. apply nothing_inv in Hb as ->.
    cbn [String.append]. rewrite append_empty_r. apply slice_from_1. }
  revert H. unfold extractClassSelectors.
  destruct (matchAll CLASS_DOT CLASS_NAME NOTHING s); [reflexivity | intros H; exact H].
Qed.

Lemma name_chars_no_space :
  forallb (fun c => implb (name_start c) (name_char c) && implb (name_char c) (negb (is_space c)))
    all_chars = true.
Proof. vm_compute. reflexivity. Qed.

Lemma name_no_space c rest :
  name_start c = true -> all_chars_of name_char rest = true ->
  String c rest <> EmptyString /\ no_space (String c rest) = true.
Proof.
  intros Hc Hr. split; [discriminate|].
  pose proof name_chars_no_space as F. rewrite forallb_forall in F.
  assert (K : forall d, name_char d = true -> negb (is_space d) = true).
  { intros d Hd. specialize (F d (all_chars_in d)). rewrite Hd in F.
    apply andb_true_iff in F as [_ F]. exact F. }
  unfold no_space. cbn [all_chars_of]. rewrite (all_chars_of_impl _ _ rest K Hr).
  specialize (F c (all_chars_in c)). rewrite Hc in F. apply andb_true_iff in F as [F1 _].
  cbn [implb] in F1. rewrite (K c F1). reflexivity.
Qed.

Lemma extractClassSelectors_names s :
  Forall (fun n => exists c rest, n = String c rest /\ name_start c = true /\
                                  all_chars_of name_char rest = true)
         (extractClassSelectors s).
Proof.
  rewrite extractClassSelectors_eq. apply Forall_forall. intros n Hn.
  apply in_map_iff in Hn as ([m g] & <- & Hin). unfold matchAll in Hin.
  apply in_match_all in Hin as (a & b & _ & _ & Hg & _). apply class_name_inv, Hg.
Qed.

(** ** Selectors built from class names *)

Lemma str_length_app a b : String.length (a ++ b) = String.length a + String.length b.
Proof. induction a as [|c a IH]; cbn; [reflexivity|]. rewrite IH. reflexivity. Qed.

Lemma rev_splits_cons c s :
  rev (splits (String c s)) =
  app (map (fun '(a, b) => (String c a, b)) (rev (splits s))) [(EmptyString, String c s)].
Proof. cbn [splits rev]. rewrite map_rev. reflexivity. Qed.

Lemma filter_map_comm {A B} (f : B -> bool) (h : A -> B) l :
  filter f (map h l) = map h (filter (fun x => f (h x)) l).
Proof.
  induction l as [|a l IH]; cbn; [reflexivity|].
  destruct (f (h a)); cbn; rewrite IH; reflexivity.
Qed.

Lemma filter_false_in {A} (f : A -> bool) l :
  (forall x, In x l -> f x = false) -> filter f l = [].
Proof.
  induction l as [|a l IH]; intros H; cbn; [reflexivity|].
  rewrite (H a (or_introl eq_refl)). apply IH. intros x Hx. apply H. right. exact Hx.
Qed.

Lemma class_dot_dot : matchb CLASS_DOT "." = true.
Proof. vm_compute. reflexivity. Qed.

Lemma class_dot_empty : matchb CLASS_DOT EmptyString = false.
Proof. vm_compute. reflexivity. Qed.

Lemma nothing_empty : matchb NOTHING EmptyString = true.
Proof. vm_compute. reflexivity. Qed.

Lemma class_name_empty : matchb CLASS_NAME EmptyString = false.
Proof. vm_compute. reflexivity. Qed.

Lemma NAME_SHAPE_class_name : re_eqb NAME_SHAPE CLASS_NAME = true.
Proof. vm_compute. reflexivity. Qed.

Lemma class_name_eq c a :
  matchb CLASS_NAME (String c a) = name_start c && all_chars_of name_char a.
Proof.
  destruct (matchb CLASS_NAME (String c a)) eqn:M.
  - apply class_name_inv in M as (c' & r' & E & H1 & H2). injection E as <- <-.
    rewrite H1, H2. reflexivity.
  - destruct (name_start c && all_chars_of name_char a) eqn:N; [|reflexivity].
    apply andb_true_iff in N as [N1 N2]. rewrite <- M. apply matchb_correct.
    apply (re_eqb_matches NAME_SHAPE); [|exact NAME_SHAPE_class_name].
    apply (m_seq' _ _ (String c EmptyString) a); [constructor; exact N1| |reflexivity].
    apply (m_seq' _ _ a EmptyString); [apply matches_star_chr; exact N2|constructor|].
    symmetry. apply append_empty_r.
Qed.

(** What may follow a class name in a selector: nothing, or a character
    outside the name. *)
Definition name_end (v : string) : Prop :=
  match v with EmptyString => True | String d _ => name_char d = false end.

Lemma name_first u v :
  all_chars_of name_char u = true -> name_end v ->
  exists l, filter (fun p => all_chars_of name_char (fst p)) (rev (splits (u ++ v))) = (u, v) :: l.
Proof.
  induction u as [|c u IH]; intros Hu Hv.
  - exists []. cbn [String.append]. destruct v as [|d v']; [reflexivity|].
    cbn in Hv. rewrite rev_splits_cons, filter_app, filter_map_comm.
    rewrite filter_false_in.
    + reflexivity.
    + intros [a b] _. cbn. rewrite Hv. reflexivity.
  - cbn [all_chars_of] in Hu. apply andb_true_iff in Hu as [Hc Hu].
    destruct (IH Hu Hv) as [l Hl].
    cbn [String.append]. rewrite rev_splits_cons, filter_app, filter_map_comm.
    rewrite (filter_ext _ (fun p => all_chars_of name_char (fst p)))
      by (intros [a b]; cbn; rewrite Hc; reflexivity).
    rewrite Hl. cbn. eexists. reflexivity.
Qed.

Lemma heads_class_name c u v :
  name_start c = true -> all_chars_of name_char u = true -> name_end v ->
  exists l, heads CLASS_NAME (String c (u ++ v)) = (String c u, v) :: l.
Proof.
  intros Hc Hu Hv. unfold heads.
  rewrite rev_splits_cons, filter_app, filter_map_comm.
  rewrite (filter_ext _ (fun p => all_chars_of name_char (fst p)))
    by (intros [a b]; cbv beta iota; cbn [fst]; rewrite class_name_eq, Hc; reflexivity).
  destruct (name_first u v Hu Hv) as [l Hl]. rewrite Hl. cbn [map app]. eexists. reflexivity.
Qed.

Lemma heads_dot n : heads CLASS_DOT (String "." n) = [(".", n)].
Proof.
  unfold heads. destruct n as [|d n']; [vm_compute; reflexivity|].
  rewrite rev_splits_cons, rev_splits_cons, map_app, !filter_app.
  rewrite (filter_false_in _ (map _ (map _ _))).
  - cbn [map filter]. rewrite class_dot_dot, class_dot_empty. reflexivity.
  - intros x Hx. apply in_map_iff in Hx as ([a b] & <- & Hx).
    apply in_map_iff in Hx as ([a' b'] & E & _). injection E as <- <-. cbv beta iota.
    destruct (matchb CLASS_DOT (String "." (String d a'))) eqn:M; [|reflexivity].
    apply class_dot_inv in M. discriminate M.
Qed.

Lemma heads_nothing v : heads NOTHING v = [(EmptyString, v)].
Proof.
  unfold heads. destruct v as [|d v']; [vm_compute; reflexivity|].
  rewrite rev_splits_cons, filter_app, filter_false_in.
  - cbn [filter]. rewrite nothing_empty. reflexivity.
  - intros x Hx. apply in_map_iff in Hx as ([a b] & <- & _). cbv beta iota.
    destruct (matchb NOTHING (String d a)) eqn:M; [|reflexivity].
    apply nothing_inv in M. discriminate M.
Qed.

Lemma match_here_selector c u v :
  name_start c = true -> all_chars_of name_char u = true -> name_end v ->
  match_here CLASS_DOT CLASS_NAME NOTHING (String "." (String c (u ++ v))) =
  Some (String "." (String c u), String c u, v).
Proof.
  intros Hc Hu Hv. unfold match_here. rewrite heads_dot. cbn [flat_map].
  destruct (heads_class_name c u v Hc Hu Hv) as [l Hl]. rewrite Hl.
  cbn [flat_map]. rewrite heads_nothing. cbn [map app hd_error String.append].
  rewrite append_empty_r. reflexivity.
Qed.

Lemma match_here_space x : match_here CLASS_DOT CLASS_NAME NOTHING (String " " x) = None.
Proof.
  unfold match_here, heads. rewrite rev_splits_cons, filter_app, filter_false_in.
  - cbn [filter]. rewrite class_dot_empty. reflexivity.
  - intros y Hy. apply in_map_iff in Hy as ([a b] & <- & _). cbv beta iota.
    destruct (matchb CLASS_DOT (String " " a)) eqn:M; [|reflexivity].
    apply class_dot_inv in M. discriminate M.
Qed.

Lemma match_here_empty : match_here CLASS_DOT CLASS_NAME NOTHING EmptyString = None.
Proof. vm_compute. reflexivity. Qed.

Lemma match_all_fuel pre grp suf f1 f2 s :
  String.length s < f1 -> String.length s < f2 ->
  match_all pre grp suf f1 s = match_all pre grp suf f2 s.
Proof.
  revert f2 s. induction f1 as [|f1 IH]; intros [|f2] s H1 H2; try lia.
  cbn [match_all]. destruct (match_here pre grp suf s) as [[[m g] rest]|] eqn:E.
  - f_equal. destruct m as [|c m'].
    + destruct s as [|d s']; [reflexivity|]. cbn in H1, H2. apply IH; lia.
    + apply match_here_sound in E as (_ & _ & _ & _ & _ & _ & Es).
      rewrite <- Es, str_length_app in H1, H2. cbn in H1, H2. apply IH; lia.
  - destruct s as [|d s']; [reflexivity|]. cbn in H1, H2. apply IH; lia.
Qed.

Lemma match_all_join ns f :
  Forall (fun n => exists c rest, n = String c rest /\ name_start c = true /\
                                  all_chars_of name_char rest = true) ns ->
  String.length (Js.join " " (map (fun n => "." ++ n) ns)) < f ->
  map snd (match_all CLASS_DOT CLASS_NAME NOTHING f (Js.join " " (map (fun n => "." ++ n) ns))) = ns.
Proof.
  revert f. induction ns as [|n ns IH]; intros f F Hf.
  - destruct f as [|f]; [cbn in Hf; lia|]. cbn [map Js.join match_all].
    rewrite match_here_empty. reflexivity.
  - inversion F as [|? ? (c & u & -> & Hc & Hu) F']; subst.
    destruct f as [|f]; [lia|].
    destruct ns as [|n2 ns'].
    + cbn [map Js.join] in Hf |- *.
      change ("." ++ String c u) with (String "." (String c u)).
      rewrite <- (append_empty_r u) at 1.
      cbn [match_all]. rewrite match_here_selector by (exact Hc || exact Hu || exact I).
      cbv beta iota. destruct f as [|f]; [reflexivity|]. cbn [match_all].
      rewrite match_here_empty. reflexivity.
    + change (Js.join " " (map (fun n => "." ++ n) (String c u :: n2 :: ns')))
        with (String "." (String c (u ++ String " " (Js.join " " (map (fun n => "." ++ n) (n2 :: ns')))))) in Hf |- *.
      cbn [match_all]. rewrite match_here_selector by (exact Hc || exact Hu || reflexivity).
      cbn [map snd]. f_equal.
      cbn [String.length] in Hf. rewrite str_length_app in Hf. cbn [String.length] in Hf.
      destruct f as [|f]; [lia|]. cbn [match_all]. rewrite match_here_space.
      apply IH; [exact F'|lia].
Qed.

(** ** [new Set] *)

Lemma NoDup_snoc {A} (l : list A) x : NoDup l -> ~ In x l -> NoDup (app l [x]).
Proof.
  induction l as [|a l IH]; cbn [app]; intros H Hn.
  - constructor; [intros []|constructor].
  - inversion H as [|? ? Ha Hl]; subst. constructor.
    + rewrite in_app_iff. intros [H'|[H'|[]]]; [contradiction|]. apply Hn. left. symmetry. exact H'.
    + apply IH; [exact Hl|]. intros H'. apply Hn. right. exact H'.
Qed.

Lemma dedup_fold_in l seen x : In x (fold_left dedup_step l seen) <-> In x seen \/ In x l.
Proof.
  revert seen. induction l as [|y l IH]; intros seen; cbn [fold_left]; [simpl; tauto|].
  rewrite IH. unfold dedup_step. destruct (existsb (String.eqb y) seen) eqn:E.
  - apply existsb_exists in E as (z & Hz & Ez). apply String.eqb_eq in Ez. subst z.
    simpl. split; [tauto|]. intros [H|[H|H]]; [tauto | subst; tauto | tauto].
  - rewrite in_app_iff. simpl. tauto.
Qed.

Lemma dedup_fold_nodup l seen : NoDup seen -> NoDup (fold_left dedup_step l seen).
Proof.
  revert seen. induction l as [|y l IH]; intros seen H; cbn [fold_left]; [exact H|].
  apply IH. unfold dedup_step. destruct (existsb (String.eqb y) seen) eqn:E; [exact H|].
  apply NoDup_snoc; [exact H|]. intros Hin.
  assert (T : existsb (String.eqb y) seen = true).
  { apply existsb_exists. exists y. split; [exact Hin | apply String.eqb_refl]. }
  rewrite T in E. discriminate E.
Qed.

Lemma dedup_in l x : In x (dedup l) <-> In x l.
Proof. unfold dedup. rewrite dedup_fold_in. simpl. tauto. Qed.

Lemma dedup_nodup l : NoDup (dedup l).
Proof. apply dedup_fold_nodup. constructor. Qed.

Lemma extract_css content ext :
  In ext [".css"; ".scss"; ".sass"] ->
  extractClassesFromFile content ext = dedup (extractClassSelectors content).
Proof.
  intros Hext. rewrite extractClassSelectors_eq. unfold extractClassesFromFile.
  assert (H1 : existsb (String.eqb ext) [".jsx"; ".tsx"; ".js"; ".ts"] = false)
    by (destruct Hext as [<-|[<-|[<-|[]]]]; reflexivity).
  assert (H2 : existsb (String.eqb ext) [".css"; ".scss"; ".sass"] = true)
    by (destruct Hext as [<-|[<-|[<-|[]]]]; reflexivity).
  assert (H3 : String.eqb ext ".html" = false)
    by (destruct Hext as [<-|[<-|[<-|[]]]]; reflexivity).
  rewrite H1, H2, H3. cbv beta iota. cbn [app]. rewrite app_nil_r. reflexivity.
Qed.

Lemma extract_tokens content ext :
  Forall (fun c => c <> EmptyString /\ no_space c = true) (extractClassesFromFile content ext).
Proof.
  apply Forall_forall. intros c H. unfold extractClassesFromFile in H.
  apply (proj1 (dedup_in _ _)) in H.
  assert (P : forall (h : string -> string) (l : list (string * string)),
                In c (flat_map (fun '(_, g) => parseClassString (h g)) l) ->
                c <> EmptyString /\ no_space c = true).
  { intros h l Hc. apply in_flat_map in Hc as ([m g] & _ & Hc).
    pose proof (parseClassString_tokens (h g)) as F. rewrite Forall_forall in F. exact (F c Hc). }
  apply in_app_iff in H as [H|H].
  - destruct (existsb _ _); [|destruct H].
    apply in_app_iff in H as [H|H]; [exact (P (fun g => g) _ H)|].
    exact (P (fun g => replace_all TEMPLATE_EXPR " " (S (String.length g)) g) _ H).
  - apply in_app_iff in H as [H|H].
    + destruct (existsb _ _); [|destruct H].
      apply in_map_iff in H as ([m g] & <- & Hin). unfold matchAll in Hin.
      apply in_match_all in Hin as (a & b & _ & _ & Hg & _).
      apply class_name_inv in Hg as (c0 & rest & -> & Hc & Hr). apply name_no_space; assumption.
    + destruct (String.eqb ext ".html"); [|destruct H]. exact (P (fun g => g) _ H).
Qed.

(** ** Validation of one class *)

Lemma bind_lift {E A B} (m : St A) (k : A -> M E B) st :
  bind (lift m) k st = k (fst (m st)) (snd (m st)).
Proof. unfold bind, lift. destruct (m st); reflexivity. Qed.

Lemma validateClassName_by_type {E} (RegExp : string -> E + (string -> bool)) t cfg :
  match getClassType RegExp t cfg with
  | inl e => validateClassName RegExp t cfg = inl e
  | inr k => exists r, validateClassName RegExp t cfg = inr r /\ type r = k /\
      valid r = match k with Some _ => true | None => allowUnknown cfg end /\
      (valid r = false -> message r <> None)
  end.
Proof.
  destruct (getClassType RegExp t cfg) as [e|[k|]] eqn:G;
    unfold validateClassName, validateClassName_st; unfold bind at 1;
    rewrite (stateless_getClassType_st RegExp t cfg store0);
    fold (getClassType RegExp t cfg); rewrite G; [reflexivity| |].
  - eexists. split; [reflexivity|]. split; [reflexivity|]. split; [reflexivity|].
    intros H. discriminate H.
  - cbv beta iota. destruct (allowUnknown cfg).
    + eexists. split; [reflexivity|]. split; [reflexivity|]. split; [reflexivity|].
      intros H. discriminate H.
    + cbv beta iota zeta. rewrite bind_lift.
      eexists. split; [reflexivity|]. split; [reflexivity|]. split; [reflexivity|].
      intros _. discriminate.
Qed.

Lemma getClassType_ok {E} (RegExp : string -> E + (string -> bool)) t cfg :
  sources_compile RegExp cfg = true -> exists k, getClassType RegExp t cfg = inr k.
Proof.
  intros H. rewrite getClassType_eq.
  destruct (isStateClass t); [eexists; reflexivity|].
  destruct (isModifier t); [eexists; reflexivity|].
  destruct (isNestedElement t); [eexists; reflexivity|].
  destruct (isElement t); [eexists; reflexivity|].
  destruct (isUtilityClass RegExp t (customUtilities cfg)) as [e|[|]] eqn:U;
    [|eexists; reflexivity|eexists; reflexivity].
  exfalso. rewrite isUtilityClass_eq in U.
  destruct (builtin_utility t); [discriminate U|].
  unfold sources_compile in H. destruct (customUtilities cfg) as [ps|]; [|discriminate U].
  apply test_custom_inl in U as (src & Hin & R).
  rewrite forallb_forall in H. specialize (H src Hin). rewrite R in H. discriminate H.
Qed.

Lemma validateClassName_ok {E} (RegExp : string -> E + (string -> bool)) t cfg :
  sources_compile RegExp cfg = true -> exists r, validateClassName RegExp t cfg = inr r.
Proof.
  intros H. destruct (getClassType_ok RegExp t cfg H) as [k G].
  pose proof (validateClassName_by_type RegExp t cfg) as V. rewrite G in V.
  destruct V as (r & Hr & _). exists r. exact Hr.
Qed.

Lemma validateClassName_cfg {E} (RegExp : string -> E + (string -> bool)) t cfg1 cfg2 :
  getClassType RegExp t cfg1 = getClassType RegExp t cfg2 ->
  allowUnknown cfg1 = allowUnknown cfg2 ->
  validateClassName RegExp t cfg1 = validateClassName RegExp t cfg2.
Proof.
  intros G A. unfold validateClassName, validateClassName_st, bind.
  rewrite (stateless_getClassType_st RegExp t cfg1 store0),
          (stateless_getClassType_st RegExp t cfg2 store0).
  fold (getClassType RegExp t cfg1). fold (getClassType RegExp t cfg2).
  rewrite G, A. reflexivity.
Qed.

Lemma getClassType_default {E} (RegExp : string -> E + (string -> bool)) t :
  getClassType RegExp t defaultConfig = getClassType RegExp t no_config.
Proof.
  rewrite !getClassType_eq. cbn [customUtilities defaultConfig no_config].
  rewrite !isUtilityClass_eq. destruct (builtin_utility t); reflexivity.
Qed.

(** ** Lists of classes *)

Lemma stateless_validate_all {E} (RegExp : string -> E + (string -> bool)) cls cfg :
  stateless (validate_all RegExp cls cfg).
Proof.
  induction cls as [|t cls IH]; cbn [validate_all]; [apply stateless_ret|].
  apply stateless_bind; [apply stateless_validateClassName_st|]. intros r.
  apply stateless_bind; [exact IH|]. intros rs. apply stateless_ret.
Qed.

Lemma validate_all_cons {E} (RegExp : string -> E + (string -> bool)) t cls cfg :
  fst (validate_all RegExp (t :: cls) cfg store0) =
  match validateClassName RegExp t cfg with
  | inl e => inl e
  | inr r => match fst (validate_all RegExp cls cfg store0) with
             | inl e => inl e
             | inr rs => inr (r :: rs)
             end
  end.
Proof.
  cbn [validate_all]. unfold bind at 1.
  rewrite (stateless_validateClassName_st RegExp t cfg store0).
  fold (validateClassName RegExp t cfg).
  destruct (validateClassName RegExp t cfg) as [e|r]; [reflexivity|]. cbv beta iota.
  unfold bind. rewrite (stateless_validate_all RegExp cls cfg store0).
  destruct (fst (validate_all RegExp cls cfg store0)); reflexivity.
Qed.

Lemma validate_all_cfg {E} (RegExp : string -> E + (string -> bool)) cls cfg1 cfg2 :
  (forall t, validateClassName RegExp t cfg1 = validateClassName RegExp t cfg2) ->
  fst (validate_all RegExp cls cfg1 store0) = fst (validate_all RegExp cls cfg2 store0).
Proof.
  intros H. induction cls as [|t cls IH]; [reflexivity|].
  rewrite !validate_all_cons, H, IH. reflexivity.
Qed.

Lemma validate_all_spec {E} (RegExp : string -> E + (string -> bool)) cls cfg :
  match fst (validate_all RegExp cls cfg store0) with
  | inr rs => Forall2 (fun t r => validateClassName RegExp t cfg = inr r) cls rs
  | inl e => exists t, In t cls /\ validateClassName RegExp t cfg = inl e
  end.
Proof.
  induction cls as [|t cls IH]; [constructor|].
  rewrite validate_all_cons. destruct (validateClassName RegExp t cfg) as [e|r] eqn:V.
  - exists t. split; [left; reflexivity | exact V].
  - destruct (fst (validate_all RegExp cls cfg store0)) as [e|rs].
    + destruct IH as (t' & Hin & Ht'). exists t'. split; [right; exact Hin | exact Ht'].
    + constructor; [exact V | exact IH].
Qed.

Lemma validate_all_ok {E} (RegExp : string -> E + (string -> bool)) cls cfg :
  sources_compile RegExp cfg = true ->
  exists rs, fst (validate_all RegExp cls cfg store0) = inr rs.
Proof.
  intros H. pose proof (validate_all_spec RegExp cls cfg) as S.
  destruct (fst (validate_all RegExp cls cfg store0)) as [e|rs]; [|exists rs; reflexivity].
  destruct S as (t & _ & Ht). destruct (validateClassName_ok RegExp t cfg H) as [r Hr].
  rewrite Hr in Ht. discriminate Ht.
Qed.

Lemma collect_invalid_eq {E} (RegExp : string -> E + (string -> bool)) cls cfg acc :
  fst (collect_invalid RegExp cls cfg acc store0) =
  match fst (validate_all RegExp cls cfg store0) with
  | inl e => inl e
  | inr rs => inr (app acc (filter (fun p => negb (valid (snd p))) (combine cls rs)))
  end.
Proof.
  revert acc. induction cls as [|t cls IH]; intros acc.
  - cbn. rewrite app_nil_r. reflexivity.
  - rewrite validate_all_cons. cbn [collect_invalid]. unfold bind at 1.
    rewrite (stateless_validateClassName_st RegExp t cfg store0).
    fold (validateClassName RegExp t cfg).
    destruct (validateClassName RegExp t cfg) as [e|r]; [reflexivity|]. cbv beta iota.
    rewrite IH. destruct (fst (validate_all RegExp cls cfg store0)) as [e|rs]; [reflexivity|].
    cbn [combine filter snd]. destruct (valid r); cbn [negb]; [reflexivity|].
    rewrite <- app_assoc. reflexivity.
Qed.

Lemma filter_all_valid (P : string -> ValidationResult -> Prop) ts rs :
  Forall2 P ts rs -> (forall t r, P t r -> valid r = true) ->
  filter (fun p => negb (valid (snd p))) (combine ts rs) = [].
Proof.
  intros F H. induction F as [|t r ts rs Ptr _ IH]; [reflexivity|].
  cbn [combine filter snd]. rewrite (H t r Ptr). exact IH.
Qed.

Lemma validate_command_loop_eq {E} (RegExp : string -> E + (string -> bool)) cls h :
  fst (validate_command_loop RegExp cls h store0) =
  inr (h || existsb (fun t => match validateClassName RegExp t no_config with
                              | inr r => negb (valid r)
                              | inl _ => false
                              end) cls).
Proof.
  revert h. induction cls as [|t cls IH]; intros h.
  - cbn. rewrite orb_false_r. reflexivity.
  - cbn [validate_command_loop existsb]. unfold bind at 1.
    rewrite (stateless_validateClassName_st RegExp t no_config store0).
    fold (validateClassName RegExp t no_config).
    destruct (validateClassName_ok RegExp t no_config eq_refl) as [r Hr]. rewrite Hr.
    cbv beta iota. rewrite IH. destruct (valid r), h; reflexivity.
Qed.

(** ** SCSS expansion *)

Lemma scss_step_length acc line :
  length (fst (scss_step acc line)) <= S (length (fst acc)).
Proof.
  destruct acc as [ex st]. unfold scss_step.
  destruct (selector_match (Js.trim line)) as [g|]; cbv beta iota zeta;
    repeat match goal with |- context [if ?b then _ else _] => destruct b end;
    cbn [fst]; rewrite ?length_app; cbn [length]; lia.
Qed.

Lemma fold_scss_length l acc :
  length (fst (fold_left scss_step l acc)) <= length (fst acc) + length l.
Proof.
  revert acc. induction l as [|x l IH]; intros acc; cbn [fold_left length]; [lia|].
  specialize (IH (scss_step acc x)). pose proof (scss_step_length acc x). lia.
Qed.

End Api.

(** * The properties of the specification *)
Module Claims.

Import Regex Hcnc.
Open Scope string_scope.

(** A configuration with only [customUtilities], [allowUnknown] and
    [strictBem] set as given. *)
Definition cfg_with (cu : option (list string)) (au sb : bool) : HcncConfig :=
  {| customUtilities := cu; allowUnknown := au; strictBem := sb |}.

(** [new RegExp(src)] for the sources used below: ["("] is malformed, any
    other source is taken to match nothing. *)
Definition engine (src : string) : unit + (string -> bool) :=
  if String.eqb src "(" then inl tt else inr (fun _ => false).

(** C1 (corrected).  Under the default configuration, [isHcncClass] is
    false for tokens of kind state or utility and for unclassified tokens,
    true for kinds block and modifier, and for kinds element and
    nested-element true exactly when no built-in utility pattern matches
    the token. *)
Theorem C1_isHcncClass_by_kind {E} (RegExp : string -> E + (string -> bool)) t :
  isHcncClass RegExp t =
  inr match getClassType RegExp t no_config with
      | inr (Some block) | inr (Some modifier) => true
      | inr (Some element) | inr (Some nested_element) => negb (builtin_utility t)
      | _ => false
      end.
Proof.
  rewrite isHcncClass_eq, getClassType_eq, isUtilityClass_eq.
  cbn [customUtilities no_config strictBem].
  destruct (isStateClass t) eqn:S.
  - destruct (state_not_bem t S) as (B & El & N & M). rewrite B, El, N, M.
    rewrite andb_false_r. reflexivity.
  - destruct (isModifier t) eqn:M.
    + rewrite (modifier_not_utility t M), !orb_true_r. reflexivity.
    + destruct (isNestedElement t), (isElement t), (builtin_utility t), (isBlock t);
        reflexivity.
Qed.

(** C1: the token [from-card_info] has kind element, yet [isHcncClass]
    is false for it: it matches the built-in utility [^from-\w+(-\d+)?$]. *)
Lemma C1_counterexample :
  ~ (forall (RegExp : string -> unit + (string -> bool)) t,
       getClassType RegExp t no_config = inr (Some element) ->
       isHcncClass RegExp t = inr true).
Proof.
  intros H.
  specialize (H engine "from-card_info" ltac:(vm_compute; reflexivity)).
  vm_compute in H. discriminate H.
Qed.

(** C2 (confirmed).  A token matched by the block grammar and by the
    utility check gets kind utility, or no kind under [strictBem]; never
    block. *)
Theorem C2_utility_before_block {E} (RegExp : string -> E + (string -> bool)) t cfg :
  isBlock t = true -> isUtilityClass RegExp t (customUtilities cfg) = inr true ->
  getClassType RegExp t cfg = inr (if strictBem cfg then None else Some utility).
Proof.
  intros B U. destruct (block_not_others t B) as (S & M & N & El).
  rewrite getClassType_eq, S, M, N, El, U. reflexivity.
Qed.

(** C2 on [mt-2], with and without [strictBem]. *)
Lemma C2_witness :
  getClassType engine "mt-2" (cfg_with None false true) = inr None /\
  getClassType engine "mt-2" (cfg_with None false false) = inr (Some utility).
Proof.
  split; apply C2_utility_before_block; vm_compute; reflexivity.
Defined.

(** C3 (code bug).  The modifier grammar takes [card__title--bold]
    although its base [card__title] (a nested element without its first
    level) is neither a block, an element nor a nested element. *)
Theorem C3_modifier_accepts_bare_nested_base {E} (RegExp : string -> E + (string -> bool)) :
  isModifier "card__title--bold" = true /\
  getClassType RegExp "card__title--bold" no_config = inr (Some modifier) /\
  isBlock "card__title" = false /\ isElement "card__title" = false /\
  isNestedElement "card__title" = false.
Proof. vm_compute. repeat split. Qed.

(** C4 (corrected).  No BEM or state grammar matches a token with three
    consecutive underscores, so [getClassType] gives such a token no kind,
    kind utility, or the error of a caller-supplied source. *)
Theorem C4_triple_underscore {E} (RegExp : string -> E + (string -> bool)) t cfg :
  Js.includes t "___" = true ->
  isStateClass t = false /\ isModifier t = false /\ isNestedElement t = false /\
  isElement t = false /\ isBlock t = false /\
  (getClassType RegExp t cfg = inr None \/
   getClassType RegExp t cfg = inr (Some utility) \/
   exists e, getClassType RegExp t cfg = inl e).
Proof.
  intros H. destruct (triple_underscore_no_grammar t H) as (B & El & N & M & S).
  repeat split; auto.
  rewrite getClassType_eq, S, M, N, El.
  destruct (isUtilityClass RegExp t (customUtilities cfg)) as [e|[|]].
  - right. right. exists e. reflexivity.
  - destruct (strictBem cfg); auto.
  - rewrite B. auto.
Qed.

(** C4 on [card___triple]. *)
Lemma C4_witness :
  isStateClass "card___triple" = false /\
  getClassType engine "card___triple" no_config = inr None.
Proof.
  destruct (C4_triple_underscore engine "card___triple" no_config
              ltac:(vm_compute; reflexivity)) as (S & _).
  split; [exact S | vm_compute; reflexivity].
Defined.

(** C4: [from-a___b] has three consecutive underscores, and the built-in
    utility [^from-\w+(-\d+)?$] matches it, so its kind is utility. *)
Lemma C4_counterexample :
  ~ (forall (RegExp : string -> unit + (string -> bool)) t,
       Js.includes t "___" = true -> getClassType RegExp t no_config = inr None).
Proof.
  intros H. specialize (H engine "from-a___b" ltac:(vm_compute; reflexivity)).
  vm_compute in H. discriminate H.
Qed.

(** C5 (confirmed).  [is] or [has], an uppercase letter, then letters and
    digits: kind state, whatever the configuration and the caller-supplied
    sources. *)
Theorem C5_state_first {E} (RegExp : string -> E + (string -> bool)) cfg pre c rest :
  (pre = "is" \/ pre = "has") -> is_upper c = true -> all_chars_of is_alnum rest = true ->
  getClassType RegExp (pre ++ String c rest) cfg = inr (Some state).
Proof.
  intros Hp Hc Hr. rewrite getClassType_eq, (state_shape_isStateClass pre c rest Hp Hc Hr).
  reflexivity.
Qed.

(** C5 on [isActive], with a malformed caller-supplied source. *)
Lemma C5_witness :
  getClassType engine "isActive" (cfg_with (Some ["("]) false true) = inr (Some state).
Proof.
  apply (C5_state_first engine _ "is" "A" "ctive"); [left; reflexivity | reflexivity | reflexivity].
Defined.

(** C6 (code bug).  The collapse suggestion needs a token that contains
    [__] and no [_], which no token does: [card__title] is refused with the
    bare message. *)
Theorem C6_collapse_suggestion_unreachable {E} (RegExp : string -> E + (string -> bool)) :
  (forall t, Js.includes t "__" && negb (Js.includes t "_") = false) /\
  getClassType RegExp "card__title" no_config = inr None /\
  validateClassName RegExp "card__title" no_config =
    inr {| valid := false; type := None;
           message := Some ("Class " ++ Js.quoted "card__title"
                            ++ " does not match HCNC naming convention") |}.
Proof.
  split; [|vm_compute; split; reflexivity].
  intros t. destruct (Js.includes t "__") eqn:H; [|reflexivity].
  destruct (includes_infix _ _ H) as (u & v & ->).
  change ("__" ++ v) with ("_" ++ ("_" ++ v)). rewrite includes_app. reflexivity.
Qed.

(** C7 (confirmed).  Under [allowUnknown], a token of no kind is valid,
    with no kind and a non-empty message. *)
Theorem C7_allow_unknown {E} (RegExp : string -> E + (string -> bool)) t cfg :
  allowUnknown cfg = true -> getClassType RegExp t cfg = inr None ->
  validateClassName RegExp t cfg =
    inr {| valid := true; type := None;
           message := Some ("Unknown class " ++ Js.quoted t ++ " (allowed by config)") |} /\
  "Unknown class " ++ Js.quoted t ++ " (allowed by config)" <> "".
Proof.
  intros A G. split; [|discriminate].
  unfold validateClassName, validateClassName_st, bind at 1.
  rewrite (stateless_getClassType_st RegExp t cfg store0).
  fold (getClassType RegExp t cfg). rewrite G. cbv beta iota. rewrite A. reflexivity.
Qed.

(** C7 on [UnknownThing]. *)
Lemma C7_witness :
  validateClassName engine "UnknownThing" (cfg_with None true false) =
    inr {| valid := true; type := None;
           message := Some ("Unknown class " ++ Js.quoted "UnknownThing"
                            ++ " (allowed by config)") |}.
Proof.
  apply (C7_allow_unknown engine "UnknownThing" (cfg_with None true false));
    [reflexivity | vm_compute; reflexivity].
Defined.

(** Whether [getClassType] gets as far as the caller-supplied sources: the
    token is not a state, modifier, nested element or element, and no
    built-in utility pattern matches it. *)
Definition custom_reached (t : string) : bool :=
  negb (isStateClass t || isModifier t || isNestedElement t || isElement t ||
        builtin_utility t).

(** C8 (corrected).  Caller-supplied sources are compiled lazily, in order.
    For a token that does not reach them ([custom_reached] false) the
    result does not depend on the engine at all, so no source is compiled.
    For a token that reaches them, [getClassType] raises an error exactly
    when some source fails to compile while every source before it compiles
    and does not match, and the error is the engine's own error for that
    source; when a source matches and every source before it compiles and
    does not match, the token is a utility (none under [strictBem]) whatever
    the sources after it.  A malformed source never counts as a match. *)
Theorem C8_custom_sources_compiled_lazily {E} (RegExp : string -> E + (string -> bool))
    t cfg ps :
  customUtilities cfg = Some ps ->
  (custom_reached t = false ->
     forall RegExp' : string -> E + (string -> bool),
       getClassType RegExp' t cfg = getClassType RegExp t cfg) /\
  (forall e, getClassType RegExp t cfg = inl e <->
     custom_reached t = true /\
     exists pre src post, ps = app pre (src :: post) /\
       Forall (fun p => exists f, RegExp p = inr f /\ f t = false) pre /\
       RegExp src = inl e) /\
  (forall pre src post f, ps = app pre (src :: post) -> custom_reached t = true ->
     Forall (fun p => exists f, RegExp p = inr f /\ f t = false) pre ->
     RegExp src = inr f -> f t = true ->
     getClassType RegExp t cfg = inr (if strictBem cfg then None else Some utility)) /\
  (isUtilityClass RegExp t (Some ps) = inr true ->
     builtin_utility t = true \/ exists src f, In src ps /\ RegExp src = inr f /\ f t = true).
Proof.
  intros Hc. split; [|split; [|split]].
  - intros H RegExp'. unfold custom_reached in H.
    rewrite !getClassType_eq, !isUtilityClass_eq.
    destruct (isStateClass t), (isModifier t), (isNestedElement t), (isElement t),
      (builtin_utility t); cbn [orb negb] in H; try discriminate H; reflexivity.
  - intros e. rewrite getClassType_eq, isUtilityClass_eq, Hc. unfold custom_reached.
    destruct (isStateClass t);
      [cbn [orb negb]; split; [intros H; discriminate H | intros [H _]; discriminate H]|].
    destruct (isModifier t);
      [cbn [orb negb]; split; [intros H; discriminate H | intros [H _]; discriminate H]|].
    destruct (isNestedElement t);
      [cbn [orb negb]; split; [intros H; discriminate H | intros [H _]; discriminate H]|].
    destruct (isElement t);
      [cbn [orb negb]; split; [intros H; discriminate H | intros [H _]; discriminate H]|].
    destruct (builtin_utility t);
      [cbn [orb negb]; split; [intros H; discriminate H | intros [H _]; discriminate H]|].
    cbn [orb negb]. rewrite <- test_custom_inl_iff.
    destruct (fst (test_custom RegExp ps t store0)) as [e'|[|]]; cbv beta iota.
    + split; [intros H; injection H as <-; split; reflexivity
             | intros [_ H]; injection H as <-; reflexivity].
    + split; [intros H; discriminate H | intros [_ H]; discriminate H].
    + split; [intros H; discriminate H | intros [_ H]; discriminate H].
  - intros pre src post f Hp Hr F R Ft. unfold custom_reached in Hr.
    rewrite getClassType_eq, isUtilityClass_eq, Hc, Hp.
    destruct (isStateClass t), (isModifier t), (isNestedElement t), (isElement t),
      (builtin_utility t); cbn [orb negb] in Hr; try discriminate Hr.
    rewrite (test_custom_first_match RegExp pre src post t f F R Ft). reflexivity.
  - rewrite isUtilityClass_eq. destruct (builtin_utility t); [left; reflexivity|].
    intros H. right. exact (test_custom_true RegExp ps t H).
Qed.

(** C8 on [card] with the sources ["^zzz$"] and ["("]: the first one
    compiles and does not match, so the second one is compiled and its
    error is raised. *)
Lemma C8_witness :
  getClassType engine "card" (cfg_with (Some ["^zzz$"; "("]) false false) = inl tt.
Proof.
  apply (proj2 (proj1 (proj2 (C8_custom_sources_compiled_lazily engine "card"
                                (cfg_with (Some ["^zzz$"; "("]) false false)
                                ["^zzz$"; "("] eq_refl)) tt)).
  split; [vm_compute; reflexivity|].
  exists ["^zzz$"], "(", []. split; [reflexivity|]. split.
  - constructor; [|constructor]. exists (fun _ => false). split; reflexivity.
  - reflexivity.
Defined.

(** C8: with the malformed source ["("] configured, [isActive] is
    classified as a state and no error is raised. *)
Lemma C8_counterexample :
  ~ (forall (RegExp : string -> unit + (string -> bool)) t cfg src ps,
       customUtilities cfg = Some ps -> In src ps -> RegExp src = inl tt ->
       exists e, getClassType RegExp t cfg = inl e).
Proof.
  intros H.
  destruct (H engine "isActive" (cfg_with (Some ["("]) false false) "(" ["("]
              eq_refl (or_introl eq_refl) eq_refl) as [e He].
  vm_compute in He. discriminate He.
Qed.

(** C9 (confirmed).  [getClassType] and [validateClassName] leave the
    module's state as they find it, and their result does not depend on
    it: every call with the same arguments returns the same value. *)
Theorem C9_classification_pure {E} (RegExp : string -> E + (string -> bool))
    t cfg (st : Store) :
  getClassType_st RegExp t cfg st = (getClassType RegExp t cfg, st) /\
  validateClassName_st RegExp t cfg st = (validateClassName RegExp t cfg, st).
Proof.
  split; [apply stateless_getClassType_st | apply stateless_validateClassName_st].
Qed.

(** C10 (confirmed).  With no open selector, a line with a closing brace
    changes neither the collected classes nor the (empty) stack, and a
    selector [&x] resolves against the empty string. *)
Theorem C10_empty_stack (expanded : list string) (line : string) :
  (Js.includes (Js.trim line) "}" = true ->
   scss_step (expanded, []) line = (expanded, [])) /\
  (forall selector0,
     selector_match (Js.trim line) = Some selector0 -> Js.starts_with "&" selector0 = true ->
     snd (scss_step (expanded, []) line) = ["" ++ Js.slice_from selector0 1]).
Proof.
  split.
  - intros H. unfold scss_step.
    destruct (selector_match (Js.trim line)) as [g|] eqn:M.
    + rewrite (selector_match_no_rbrace _ _ M) in H. discriminate H.
    + cbv beta iota zeta. rewrite H. reflexivity.
  - intros g M A. unfold scss_step. rewrite M, A.
    rewrite (selector_match_no_rbrace _ _ M). reflexivity.
Qed.

(** C10 on the lines [}] and [&_info {]. *)
Lemma C10_witness :
  scss_step (["card"], []) "}" = (["card"], []) /\
  snd (scss_step ([], []) "&_info {") = ["_info"].
Proof.
  split.
  - apply (proj1 (C10_empty_stack ["card"] "}")). vm_compute. reflexivity.
  - apply (proj2 (C10_empty_stack [] "&_info {") "&_info");
      vm_compute; reflexivity.
Defined.

End Claims.

(** * Further properties of the code *)
Module Extras.

Import Regex Hcnc Api.
Open Scope string_scope.

(** X1.  [parseClassString] returns non-empty classes without white space. *)
Theorem X1_parseClassString_tokens s :
  Forall (fun t => t <> EmptyString /\ no_space t = true) (parseClassString s).
Proof. apply parseClassString_tokens. Qed.

(** X2.  Joining non-empty classes without white space by single spaces and
    parsing the result gives the classes back. *)
Theorem X2_parseClassString_join ts :
  Forall (fun t => t <> EmptyString /\ no_space t = true) ts ->
  parseClassString (Js.join " " ts) = ts.
Proof. apply parseClassString_join. Qed.

Lemma X2_witness : parseClassString (Js.join " " ["card"; "card_info"; "isActive"]) =
                   ["card"; "card_info"; "isActive"].
Proof.
  apply X2_parseClassString_join.
  repeat constructor; (discriminate || reflexivity).
Defined.

(** X3.  [validateClassName] raises exactly the error of [getClassType];
    otherwise its result carries the kind found by [getClassType], is valid
    exactly when there is a kind or [allowUnknown] is set, and an invalid
    result always has a message. *)
Theorem X3_validate_follows_type {E} (RegExp : string -> E + (string -> bool)) t cfg :
  match getClassType RegExp t cfg with
  | inl e => validateClassName RegExp t cfg = inl e
  | inr k => exists r, validateClassName RegExp t cfg = inr r /\ type r = k /\
      valid r = match k with Some _ => true | None => allowUnknown cfg end /\
      (valid r = false -> message r <> None)
  end.
Proof. apply validateClassName_by_type. Qed.

(** X4.  The exported [defaultConfig] behaves as no configuration at all, for
    [getClassType], [validateClassName], [validateClassString] and
    [getInvalidClasses]. *)
Theorem X4_defaultConfig_is_no_config {E} (RegExp : string -> E + (string -> bool)) t s :
  getClassType RegExp t defaultConfig = getClassType RegExp t no_config /\
  validateClassName RegExp t defaultConfig = validateClassName RegExp t no_config /\
  validateClassString RegExp s defaultConfig = validateClassString RegExp s no_config /\
  getInvalidClasses RegExp s defaultConfig = getInvalidClasses RegExp s no_config.
Proof.
  assert (V : forall u, validateClassName RegExp u defaultConfig = validateClassName RegExp u no_config)
    by (intros u; apply validateClassName_cfg; [apply getClassType_default | reflexivity]).
  assert (S : validateClassString RegExp s defaultConfig = validateClassString RegExp s no_config)
    by (apply validate_all_cfg, V).
  split; [apply getClassType_default|]. split; [apply V|]. split; [exact S|].
  unfold getInvalidClasses, getInvalidClasses_st. rewrite !collect_invalid_eq.
  unfold validateClassString, validateClassString_st in S. rewrite S. reflexivity.
Qed.

(** X5.  [validateClassString] validates each class of [parseClassString],
    in order; an error it raises is the error of one of these classes, and
    it raises none when every caller-supplied source compiles. *)
Theorem X5_validateClassString {E} (RegExp : string -> E + (string -> bool)) s cfg :
  match validateClassString RegExp s cfg with
  | inr rs => Forall2 (fun t r => validateClassName RegExp t cfg = inr r) (parseClassString s) rs
  | inl e => exists t, In t (parseClassString s) /\ validateClassName RegExp t cfg = inl e
  end /\
  (sources_compile RegExp cfg = true -> exists rs, validateClassString RegExp s cfg = inr rs).
Proof.
  unfold validateClassString, validateClassString_st.
  split; [apply validate_all_spec | apply validate_all_ok].
Qed.

Lemma X5_witness : exists rs, validateClassString Claims.engine " card  isActive " no_config = inr rs.
Proof. apply (proj2 (X5_validateClassString Claims.engine " card  isActive " no_config)). reflexivity. Defined.

(** X6.  [getInvalidClasses] raises what [validateClassString] raises, and
    otherwise returns the classes whose result is invalid, each with its
    result, in the order of the class string. *)
Theorem X6_getInvalidClasses {E} (RegExp : string -> E + (string -> bool)) s cfg :
  getInvalidClasses RegExp s cfg =
  match validateClassString RegExp s cfg with
  | inl e => inl e
  | inr rs => inr (filter (fun p => negb (valid (snd p))) (combine (parseClassString s) rs))
  end.
Proof.
  unfold getInvalidClasses, getInvalidClasses_st, validateClassString, validateClassString_st.
  rewrite collect_invalid_eq. reflexivity.
Qed.

(** X7.  Under [allowUnknown], when every caller-supplied source compiles,
    [getInvalidClasses] returns no class. *)
Theorem X7_allowUnknown_nothing_invalid {E} (RegExp : string -> E + (string -> bool)) s cfg :
  allowUnknown cfg = true -> sources_compile RegExp cfg = true ->
  getInvalidClasses RegExp s cfg = inr [].
Proof.
  intros A H. unfold getInvalidClasses, getInvalidClasses_st. rewrite collect_invalid_eq.
  pose proof (validate_all_spec RegExp (parseClassString s) cfg) as S.
  destruct (validate_all_ok RegExp (parseClassString s) cfg H) as [rs Hrs].
  rewrite Hrs in S |- *. cbn [app]. f_equal.
  apply (filter_all_valid _ _ _ S). intros t r Hr.
  pose proof (validateClassName_by_type RegExp t cfg) as V.
  destruct (getClassType RegExp t cfg) as [e|k]; [rewrite Hr in V; discriminate V|].
  destruct V as (r' & Hr' & _ & Hv & _). rewrite Hr in Hr'. injection Hr' as <-.
  rewrite Hv. destruct k; [reflexivity | exact A].
Qed.

Lemma X7_witness :
  getInvalidClasses Claims.engine "Card foo__bar card" (Claims.cfg_with None true false) = inr [].
Proof. apply X7_allowUnknown_nothing_invalid; reflexivity. Defined.

(** X8.  Every name that [extractClassSelectors] returns is non-empty, starts
    with a letter or [_], and goes on with letters, digits, [_] and [-]. *)
Theorem X8_extractClassSelectors_names s :
  Forall (fun n => exists c rest, n = String c rest /\ name_start c = true /\
                                  all_chars_of name_char rest = true)
         (extractClassSelectors s).
Proof. apply extractClassSelectors_names. Qed.

(** X9.  [validateCssSelector] validates each name of
    [extractClassSelectors], in order; an error it raises is the error of one
    of these names, and it raises none when every caller-supplied source
    compiles. *)
Theorem X9_validateCssSelector {E} (RegExp : string -> E + (string -> bool)) s cfg :
  match validateCssSelector RegExp s cfg with
  | inr rs => Forall2 (fun t r => validateClassName RegExp t cfg = inr r) (extractClassSelectors s) rs
  | inl e => exists t, In t (extractClassSelectors s) /\ validateClassName RegExp t cfg = inl e
  end /\
  (sources_compile RegExp cfg = true -> exists rs, validateCssSelector RegExp s cfg = inr rs).
Proof.
  unfold validateCssSelector, validateCssSelector_st.
  split; [apply validate_all_spec | apply validate_all_ok].
Qed.

Lemma X9_witness : exists rs, validateCssSelector Claims.engine ".card > .card_info:hover" no_config = inr rs.
Proof. apply (proj2 (X9_validateCssSelector Claims.engine ".card > .card_info:hover" no_config)). reflexivity. Defined.

(** X10.  For a [.css], [.scss] or [.sass] file, the CLI's
    [extractClassesFromFile] returns the names [extractClassSelectors] finds
    in the content, without repetitions. *)
Theorem X10_css_file_classes content ext :
  In ext [".css"; ".scss"; ".sass"] ->
  extractClassesFromFile content ext = dedup (extractClassSelectors content).
Proof. apply extract_css. Qed.

Lemma X10_witness :
  extractClassesFromFile ".card { }\n.card_info .card { }" ".scss" =
  dedup (extractClassSelectors ".card { }\n.card_info .card { }").
Proof. apply X10_css_file_classes. simpl. tauto. Defined.

(** X11.  Whatever the file, [extractClassesFromFile] returns non-empty
    classes without white space, none of them twice. *)
Theorem X11_file_classes content ext :
  NoDup (extractClassesFromFile content ext) /\
  Forall (fun c => c <> EmptyString /\ no_space c = true) (extractClassesFromFile content ext).
Proof. split; [apply dedup_nodup | apply extract_tokens]. Qed.

(** X12.  A selector line [&x] under an open selector [p] opens [p] followed
    by [x] (the [&] replaced by the innermost open selector, whatever the
    outer ones), and collects it without its dot when it is a class. *)
Theorem X12_scss_parent_reference (expanded stack : list string) (p line x : string) :
  selector_match (Js.trim line) = Some (String "&" x) ->
  scss_step (expanded, app stack [p]) line =
    (if Js.starts_with "." (p ++ x) then app expanded [Js.slice_from (p ++ x) 1] else expanded,
     app (app stack [p]) [p ++ x]).
Proof.
  intros H. unfold scss_step. cbv beta iota zeta. rewrite H. cbv beta iota zeta.
  change (Js.starts_with "&" (String "&" x)) with true. cbv beta iota.
  rewrite (selector_match_no_rbrace _ _ H), last_last, slice_from_1. reflexivity.
Qed.

Lemma X12_witness :
  scss_step (["card"], [".card"]) "  &_info {" = (["card"; "card_info"], [".card"; ".card_info"]).
Proof.
  exact (X12_scss_parent_reference ["card"] [] ".card" "  &_info {" "_info"
           ltac:(vm_compute; reflexivity)).
Defined.

(** X13.  A line whose trimmed text contains [}] collects nothing and closes
    the innermost open selector; so a rule on one line, such as
    [.x { color: red; }], is not collected. *)
Theorem X13_scss_closing_line (expanded stack : list string) (line : string) :
  Js.includes (Js.trim line) "}" = true ->
  scss_step (expanded, stack) line = (expanded, removelast stack).
Proof.
  intros H. unfold scss_step. cbv beta iota zeta.
  destruct (selector_match (Js.trim line)) as [g|] eqn:M.
  - rewrite (selector_match_no_rbrace _ _ M) in H. discriminate H.
  - cbv beta iota zeta. rewrite H. reflexivity.
Qed.

Lemma X13_witness :
  scss_step (["card"], [".card"; ".card_info"]) "  .x { color: red; }" = (["card"], [".card"]).
Proof. apply X13_scss_closing_line. vm_compute. reflexivity. Defined.

(** X14.  [expandScssNesting] collects at most one class per line. *)
Theorem X14_expand_at_most_one_per_line scss :
  length (expandScssNesting scss) <= length (Js.split_lines scss).
Proof.
  unfold expandScssNesting.
  pose proof (fold_scss_length (Js.split_lines scss) ([], [])) as H.
  cbn [fst length Nat.add] in H. exact H.
Qed.

(** X15.  [hcnc validate a1 ... an], with arguments that are non-empty and
    without white space, exits with status 1 exactly when there is no
    argument or one of them is invalid without configuration. *)
Theorem X15_validate_command {E} (RegExp : string -> E + (string -> bool)) args :
  Forall (fun a => a <> EmptyString /\ no_space a = true) args ->
  validate_case RegExp args =
  inr match args with
      | [] => true
      | _ => existsb (fun a => match validateClassName RegExp a no_config with
                               | inr r => negb (valid r)
                               | inl _ => false
                               end) args
      end.
Proof.
  intros F. destruct args as [|a rest]; [reflexivity|].
  unfold validate_case, validate_case_st. cbv beta iota.
  inversion F as [|? ? [Ha _] _]; subst.
  destruct (String.eqb a EmptyString) eqn:E0; [apply String.eqb_eq in E0; contradiction|].
  cbv beta iota. unfold validateCommand_st. rewrite parseClassString_join by exact F.
  rewrite validate_command_loop_eq. reflexivity.
Qed.

Lemma X15_witness :
  validate_case Claims.engine ["card"; "card__title"] = inr true.
Proof.
  refine (eq_trans (X15_validate_command Claims.engine ["card"; "card__title"] _) _).
  - repeat constructor; (discriminate || reflexivity).
  - vm_compute. reflexivity.
Defined.

(** X16.  [extractClassSelectors] reads back every class of a selector
    written as dot-prefixed class names separated by single spaces: for names
    that start with a letter or underscore and go on with letters, digits,
    underscores and hyphens, it returns exactly the list of names, in order
    and with repetitions. *)
Theorem X16_extractClassSelectors_join ns :
  Forall (fun n => exists c rest, n = String c rest /\ name_start c = true /\
                                  all_chars_of name_char rest = true) ns ->
  extractClassSelectors (Js.join " " (map (fun n => "." ++ n) ns)) = ns.
Proof.
  intros F. rewrite extractClassSelectors_eq. unfold matchAll.
  apply match_all_join; [exact F|lia].
Qed.

Lemma X16_witness :
  extractClassSelectors ".card .card_info__title .card" = ["card"; "card_info__title"; "card"].
Proof.
  refine (X16_extractClassSelectors_join ["card"; "card_info__title"; "card"] _).
  repeat (apply Forall_cons; [eexists _, _; split; [reflexivity|split; reflexivity]|]).
  apply Forall_nil.
Defined.

End Extras.
